(** * OnePlus kernel flasher: a shallow embedding of the flash orchestration

    The development follows the TypeScript sources:
    - [utils/version.ts]      firmware identifier parsing ([Version]),
    - [services/github.ts]    release catalogue with its cache ([GitHub]),
    - [services/download.ts]  proxied download with progress ([Download]),
    - [services/fastboot.ts]  the fastboot session wrapper ([Fastboot]),
    - [App.tsx]               the flow controller ([Flow]).

    JavaScript strings are modelled by [string], byte buffers by
    [list byte], integral numbers (sizes, HTTP status codes) by [Z] and [N],
    and the two fractional progress values by [Q]. *)

From Stdlib Require Import List String Ascii Bool Arith ZArith NArith QArith Lia.
From Stdlib Require Import Sorted.
From Stdlib Require Import Init.Byte.
From Stdlib Require DecimalString.
Import ListNotations.

Local Open Scope string_scope.
Local Open Scope list_scope.
Local Open Scope Z_scope.

Set Implicit Arguments.

(** ** JavaScript preliminaries *)

(** A thrown value is either an [Error] instance carrying a message or any
    other value ([err instanceof Error] is false for the latter, and it is
    taken to have no [message] property). *)
Inductive Thrown : Type :=
| ErrorObj (message : string)
| NonError.

(** The settlement of a promise. *)
Inductive Settled (A : Type) : Type :=
| Resolved (a : A)
| Rejected (t : Thrown).
Arguments Resolved {A} a.
Arguments Rejected {A} t.

(** [err instanceof Error ? err.message : 'Unknown error'] *)
Definition catch_message (t : Thrown) : string :=
  match t with
  | ErrorObj m => m
  | NonError => "Unknown error"
  end.

(** [s.startsWith(p)] *)
Fixpoint starts_with (p s : string) : bool :=
  match p, s with
  | EmptyString, _ => true
  | String a p', String b s' => Ascii.eqb a b && starts_with p' s'
  | String _ _, EmptyString => false
  end.

(** [s.includes(p)] *)
Fixpoint includes (s p : string) : bool :=
  starts_with p s ||
  match s with
  | EmptyString => false
  | String _ s' => includes s' p
  end.

(** Template-literal rendering of a non-negative integer. *)
Definition show_N (n : N) : string :=
  DecimalString.NilZero.string_of_uint (N.to_uint n).

(** Template-literal rendering of an integer. *)
Definition show_Z (z : Z) : string :=
  DecimalString.NilZero.string_of_int (Z.to_int z).

(** ** utils/version.ts *)
Module Version.

Local Open Scope string_scope.

Record ParsedVersion : Type := {
  modelCode : string;
  version : string;
  regionCode : string;
  fullVersion : string
}.

(** The character classes of the pattern: [\d] and [[A-Z0-9]]. *)
Definition is_digit (c : ascii) : bool :=
  (48 <=? N_of_ascii c)%N && (N_of_ascii c <=? 57)%N.

Definition is_upper (c : ascii) : bool :=
  (65 <=? N_of_ascii c)%N && (N_of_ascii c <=? 90)%N.

Definition is_region_char (c : ascii) : bool := is_upper c || is_digit c.

(** Longest prefix of [s] whose characters satisfy [p], and the rest. *)
Fixpoint span (p : ascii -> bool) (s : string) : string * string :=
  match s with
  | EmptyString => (EmptyString, EmptyString)
  | String c s' =>
      if p c then let (a, b) := span p s' in (String c a, b)
      else (EmptyString, s)
  end.

(** [X+] for a character class [X]: greedy, at least one character.  The
    pattern always follows such a group by a literal outside the class, so
    the greedy choice is the only one regular-expression matching can keep. *)
Definition many1 (p : ascii -> bool) (s : string) : option (string * string) :=
  match span p s with
  | (EmptyString, _) => None
  | (a, b) => Some (a, b)
  end.

(** A literal of the pattern. *)
Fixpoint lit (l s : string) : option string :=
  match l, s with
  | EmptyString, _ => Some s
  | String a l', String b s' => if Ascii.eqb a b then lit l' s' else None
  | String _ _, EmptyString => None
  end.

Definition bindo {A B} (o : option A) (f : A -> option B) : option B :=
  match o with
  | Some a => f a
  | None => None
  end.

Notation "' p <- o ;; k" := (bindo o (fun x => match x with p => k end))
  (at level 61, p pattern, o at next level, right associativity).

(** [versionString.match(/^(CPH\d+)_(\d+\.\d+\.\d+\.\d+)\(([A-Z0-9]+)\)$/)]
    followed by the construction of the result object. *)
Definition parseVersion (versionString : string) : option ParsedVersion :=
  ' s1 <- lit "CPH" versionString ;;
  ' (d, s2) <- many1 is_digit s1 ;;
  ' s3 <- lit "_" s2 ;;
  ' (v1, s4) <- many1 is_digit s3 ;;
  ' s5 <- lit "." s4 ;;
  ' (v2, s6) <- many1 is_digit s5 ;;
  ' s7 <- lit "." s6 ;;
  ' (v3, s8) <- many1 is_digit s7 ;;
  ' s9 <- lit "." s8 ;;
  ' (v4, s10) <- many1 is_digit s9 ;;
  ' s11 <- lit "(" s10 ;;
  ' (r, s12) <- many1 is_region_char s11 ;;
  ' s13 <- lit ")" s12 ;;
  match s13 with
  | EmptyString =>
      Some {| modelCode := "CPH" ++ d;
              version := v1 ++ "." ++ v2 ++ "." ++ v3 ++ "." ++ v4;
              regionCode := r;
              fullVersion := versionString |}
  | String _ _ => None
  end.

Definition isOnePlusOpen (modelCode : string) : bool :=
  String.eqb modelCode "CPH2551".

(** The shape of a firmware identifier, read off the specification:
    [<model>_<d>.<d>.<d>.<d>(<REGION>)]. *)
Fixpoint all_chars (p : ascii -> bool) (s : string) : bool :=
  match s with
  | EmptyString => true
  | String c s' => p c && all_chars p s'
  end.

Definition some_chars (p : ascii -> bool) (s : string) : bool :=
  match s with
  | EmptyString => false
  | String _ _ => all_chars p s
  end.

(** A model code: the letters CPH and a number. *)
Definition is_model (m : string) : Prop :=
  exists d, m = "CPH" ++ d /\ some_chars is_digit d = true.

(** A four-part numeric version. *)
Definition is_version (v : string) : Prop :=
  exists v1 v2 v3 v4,
    v = v1 ++ "." ++ v2 ++ "." ++ v3 ++ "." ++ v4 /\
    some_chars is_digit v1 = true /\ some_chars is_digit v2 = true /\
    some_chars is_digit v3 = true /\ some_chars is_digit v4 = true.

(** A region code: upper-case letters and digits. *)
Definition is_region (r : string) : Prop := some_chars is_region_char r = true.

Definition firmware_form (s m v r : string) : Prop :=
  is_model m /\ is_version v /\ is_region r /\
  s = m ++ "_" ++ v ++ "(" ++ r ++ ")".

(** Where a greedy scan has to stop: at the end or at a foreign character. *)
Definition stops (p : ascii -> bool) (s : string) : bool :=
  match s with
  | EmptyString => true
  | String c _ => negb (p c)
  end.

(** White space as [String.prototype.trim] knows it (WhiteSpace and
    LineTerminator), on the UTF-8 bytes of the string: the ASCII controls
    and the space, U+00A0, U+1680, U+2000 to U+200A, U+2028, U+2029,
    U+202F, U+205F, U+3000 and U+FEFF. *)
Definition ws1 (a : ascii) : bool :=
  let a := N_of_ascii a in
  ((9 <=? a) && (a <=? 13) || (a =? 32))%N.

Definition ws2 (a b : ascii) : bool :=
  ((N_of_ascii a =? 194) && (N_of_ascii b =? 160))%N.

Definition ws3 (a b c : ascii) : bool :=
  let a := N_of_ascii a in
  let b := N_of_ascii b in
  let c := N_of_ascii c in
  ((a =? 225) && (b =? 154) && (c =? 128) ||
   (a =? 226) && (b =? 128) &&
     ((128 <=? c) && (c <=? 138) || (c =? 168) || (c =? 169) || (c =? 175)) ||
   (a =? 226) && (b =? 129) && (c =? 159) ||
   (a =? 227) && (b =? 128) && (c =? 128) ||
   (a =? 239) && (b =? 187) && (c =? 191))%N.

(** Drop the white space a list of bytes starts with; with [backwards] the
    list is read from the end of the string, so the bytes of a character
    come in reverse. *)
Fixpoint strip (backwards : bool) (l : list ascii) : list ascii :=
  match l with
  | [] => []
  | a :: l1 =>
      if ws1 a then strip backwards l1
      else
        match l1 with
        | [] => l
        | b :: l2 =>
            if (if backwards then ws2 b a else ws2 a b) then strip backwards l2
            else
              match l2 with
              | [] => l
              | c :: l3 =>
                  if (if backwards then ws3 c b a else ws3 a b c)
                  then strip backwards l3
                  else l
              end
        end
  end.

(** [s.trim()] *)
Definition trim (s : string) : string :=
  string_of_list_ascii
    (rev (strip true (rev (strip false (list_ascii_of_string s))))).

(** Check if two version strings match exactly *)
Definition versionsMatch (deviceVersion releaseTag : string) : bool :=
  String.eqb (trim deviceVersion) (trim releaseTag).

(** [x.toFixed(1)] for the quotient [x = bytes / unit] of a non-negative
    integer below 2^53 by a power of two.  The division is exact in double
    precision, and [toFixed] takes the integer [n] with [n / 10] nearest to
    [x], the larger one on a tie, and prints it with one digit after the
    point. *)
Definition tenths (bytes unit : Z) : Z :=
  ((10 * bytes + unit / 2) / unit)%Z.

Definition toFixed1 (bytes unit : Z) : string :=
  let n := tenths bytes unit in
  show_Z (n / 10)%Z ++ "." ++ show_Z (n mod 10)%Z.

(** Format file size for display.  [bytes] ranges over the integers a
    JavaScript number holds exactly, from -(2^53 - 1) to 2^53 - 1: these
    are the ones a template literal prints digit by digit, as [show_Z]
    does. *)
Definition formatFileSize (bytes : Z) : string :=
  if (bytes <? 1024)%Z then show_Z bytes ++ " B"
  else if (bytes <? 1024 * 1024)%Z then toFixed1 bytes 1024 ++ " KB"
  else toFixed1 bytes (1024 * 1024) ++ " MB".

End Version.

(** ** types/index.ts *)
Module Types.

Inductive FlashState : Type :=
| IDLE
| BROWSER_UNSUPPORTED
| WAITING_ADB_CONNECT
| ADB_CONNECTING
| ADB_CONNECTED
| DETECTING_FIRMWARE
| FIRMWARE_DETECTED
| FETCHING_RELEASES
| RELEASE_NOT_FOUND
| RELEASE_MATCHED
| DOWNLOADING_IMAGE
| DOWNLOAD_COMPLETE
| CONFIRMING_FLASH
| REBOOTING_BOOTLOADER
| WAITING_FASTBOOT
| FASTBOOT_CONNECTING
| FASTBOOT_CONNECTED
| FLASHING
| FLASH_COMPLETE
| REBOOTING_SYSTEM
| SUCCESS
| ERROR.

Record DeviceInfo : Type := {
  model : string;
  firmwareVersion : string;
  serial : option string
}.

Record GitHubAsset : Type := {
  name : string;
  browser_download_url : string;
  size : Z
}.

Record GitHubRelease : Type := {
  tag_name : string;
  release_name : string;
  published_at : string;
  assets : list GitHubAsset
}.

Record DownloadProgress : Type := {
  loaded : Z;
  total : Z;
  percentage : Q
}.

Record FlashProgress : Type := {
  action : string;
  partition : string;
  progress : Q
}.

(** A [Blob] is its byte content; [new Blob(parts)] concatenates the parts. *)
Definition Blob : Type := list byte.

Definition blob_of_parts (parts : list (list byte)) : Blob := List.concat parts.

Definition blob_size (b : Blob) : Z := Z.of_nat (List.length b).

Record AppState : Type := {
  state : FlashState;
  deviceInfo : option DeviceInfo;
  matchedRelease : option GitHubRelease;
  imageBlob : option Blob;
  downloadProgress : option DownloadProgress;
  flashProgress : option FlashProgress;
  error : option string;
  logs : list string
}.

End Types.
Import Types.

(** ** The [fetch] boundary and asynchronous computations *)
Module Net.

(** What the successive [reader.read()] calls of a response body deliver:
    the chunks in arrival order, then either [done] or a rejection. *)
Record Body : Type := {
  chunks : list (list byte);
  failure : option Thrown
}.

(** The parts of a [Response] the services look at.  [content_length] is the
    Content-Length header as the integer [parseInt] reads from it, absent
    when the header is missing or empty; [json] and [blob] are the
    settlements of [response.json()] and [response.blob()]. *)
Record Response : Type := {
  ok : bool;
  status : N;
  statusText : string;
  content_length : option Z;
  json : Settled (list GitHubRelease);
  body : option Body;
  blob : Settled Blob
}.

(** The network: the settlement of the [n]-th [fetch] of a run, given its URL. *)
Definition Oracle : Type := nat -> string -> Settled Response.

(** The world a service call runs in: the network, the URLs requested so
    far and the arguments the progress callback has been invoked with. *)
Record World : Type := {
  oracle : Oracle;
  requests : list string;
  progress_calls : list DownloadProgress
}.

Definition new_world (o : Oracle) : World :=
  {| oracle := o; requests := []; progress_calls := [] |}.

(** An [async] function over a state [S]: it settles and leaves a state. *)
Definition Async (S A : Type) : Type := S -> Settled A * S.

Definition ret {S A} (a : A) : Async S A := fun s => (Resolved a, s).

Definition bind {S A B} (m : Async S A) (f : A -> Async S B) : Async S B :=
  fun s =>
    match m s with
    | (Resolved a, s') => f a s'
    | (Rejected t, s') => (Rejected t, s')
    end.

Definition throw {S A} (t : Thrown) : Async S A := fun s => (Rejected t, s).

Definition try_catch {S A} (m : Async S A) (h : Thrown -> Async S A)
  : Async S A :=
  fun s =>
    match m s with
    | (Resolved a, s') => (Resolved a, s')
    | (Rejected t, s') => h t s'
    end.

(** [await p] for an already known settlement [p]. *)
Definition await {S A} (p : Settled A) : Async S A := fun s => (p, s).

(** [await fetch(url)] *)
Definition fetch (url : string) : Async World Response :=
  fun w =>
    (oracle w (List.length (requests w)) url,
     {| oracle := oracle w;
        requests := requests w ++ [url];
        progress_calls := progress_calls w |}).

(** [onProgress?.(p)]: the callback is optional. *)
Definition call_progress (onProgress : bool) (p : DownloadProgress)
  : Async World unit :=
  fun w =>
    (Resolved tt,
     if onProgress then
       {| oracle := oracle w;
          requests := requests w;
          progress_calls := progress_calls w ++ [p] |}
     else w).

End Net.
Import Net.

Declare Scope async_scope.
Delimit Scope async_scope with async.
Notation "x <- m ;; k" := (bind m (fun x => k))
  (at level 61, m at next level, right associativity) : async_scope.
Notation "m ;;; k" := (bind m (fun _ => k))
  (at level 61, right associativity) : async_scope.

(** ** services/github.ts *)
Module GitHub.

Local Open Scope string_scope.
Local Open Scope async_scope.

Definition REPO_OWNER : string := "CruelKernel".
Definition REPO_NAME : string := "oneplus_kernel_patcher".

Definition releases_url : string :=
  "https://api.github.com/repos/" ++ REPO_OWNER ++ "/" ++ REPO_NAME ++ "/releases".

Record GitHubService : Type := {
  releasesCache : option (list GitHubRelease)
}.

Definition new_GitHubService : GitHubService := {| releasesCache := None |}.

(** The methods run over the service object and the network. *)
Definition St : Type := (GitHubService * World)%type.

Definition lift_net {A} (m : Async World A) : Async St A :=
  fun s => let (r, w') := m (snd s) in (r, (fst s, w')).

Definition get_cache : Async St (option (list GitHubRelease)) :=
  fun s => (Resolved (releasesCache (fst s)), s).

Definition set_cache (c : option (list GitHubRelease)) : Async St unit :=
  fun s => (Resolved tt, ({| releasesCache := c |}, snd s)).

(** [fetchReleases]: the cache holds an array (always truthy) or [null]. *)
Definition fetchReleases : Async St (list GitHubRelease) :=
  cached <- get_cache ;;
  match cached with
  | Some releases => ret releases
  | None =>
      response <- lift_net (fetch releases_url) ;;
      if negb (ok response) then
        throw (ErrorObj ("Failed to fetch releases: " ++
                         show_N (status response) ++ " " ++ statusText response))
      else
        releases <- await (json response) ;;
        set_cache (Some releases) ;;;
        ret releases
  end.

(** [releases.find(r => r.tag_name === firmwareVersion) || null] *)
Definition find_by_tag (firmwareVersion : string)
    (releases : list GitHubRelease) : option GitHubRelease :=
  List.find (fun r => String.eqb (tag_name r) firmwareVersion) releases.

Definition findMatchingRelease (firmwareVersion : string)
  : Async St (option GitHubRelease) :=
  releases <- fetchReleases ;;
  ret (find_by_tag firmwareVersion releases).

Definition getPatchedImageAsset (release : GitHubRelease) : option GitHubAsset :=
  List.find (fun a => String.eqb (name a) "magisk_patched_init_boot.img")
            (assets release).

Definition getStockImageAsset (release : GitHubRelease) : option GitHubAsset :=
  List.find (fun a => String.eqb (name a) "init_boot.img") (assets release).

Definition clearCache (g : GitHubService) : GitHubService :=
  {| releasesCache := None |}.

End GitHub.

(** ** services/download.ts *)
Module Download.

Local Open Scope string_scope.
Local Open Scope async_scope.

(** [encodeURIComponent] on the bytes of the string: everything but
    letters, digits and [-_.!~*'()] is percent-encoded. *)
Definition hex_digit (n : N) : ascii :=
  if (n <? 10)%N then ascii_of_N (48 + n) else ascii_of_N (55 + n).

Definition unreserved (c : ascii) : bool :=
  let n := N_of_ascii c in
  ((48 <=? n) && (n <=? 57) || (65 <=? n) && (n <=? 90) ||
   (97 <=? n) && (n <=? 122))%N ||
  existsb (Ascii.eqb c) (list_ascii_of_string "-_.!~*'()").

Fixpoint encodeURIComponent (s : string) : string :=
  match s with
  | EmptyString => EmptyString
  | String c s' =>
      if unreserved c then String c (encodeURIComponent s')
      else
        let n := N_of_ascii c in
        String "%" (String (hex_digit (n / 16)) (String (hex_digit (n mod 16))
                   (encodeURIComponent s')))
  end.

(** List of CORS proxies to try in order. *)
Definition CORS_PROXIES : list (string -> string) :=
  [ fun url => "https://api.codetabs.com/v1/proxy?quest=" ++ encodeURIComponent url ].

(** [total > 0 ? (loaded / total) * 100 : 0] *)
Definition percentage_of (loaded total : Z) : Q :=
  if total >? 0 then (inject_Z loaded / inject_Z total) * 100 else 0.

(** The [while (true)] loop over [reader.read()]: [pending] is what the
    reader still has to deliver, [chunks] and [loaded] are the loop's
    variables. *)
Fixpoint read_loop (onProgress : bool) (total : Z)
    (pending : list (list byte)) (failure : option Thrown)
    (chunks : list (list byte)) (loaded : Z) : Async World Blob :=
  match pending with
  | [] =>
      match failure with
      | None => ret (blob_of_parts chunks)
      | Some t => throw t
      end
  | value :: rest =>
      let chunks := (chunks ++ [value])%list in
      let loaded := loaded + Z.of_nat (List.length value) in
      call_progress onProgress
        {| loaded := loaded; total := total;
           percentage := percentage_of loaded total |} ;;;
      read_loop onProgress total rest failure chunks loaded
  end.

Definition downloadWithProgress (response : Response) (onProgress : bool)
  : Async World Blob :=
  let total := match content_length response with Some n => n | None => 0 end in
  match body response with
  | None => await (blob response)
  | Some b => read_loop onProgress total (Net.chunks b) (Net.failure b) [] 0
  end.

(** [lastError?.message || 'All proxies failed'] *)
Definition last_message (lastError : option Thrown) : string :=
  match lastError with
  | Some (ErrorObj (String c m)) => String c m
  | _ => "All proxies failed"
  end.

(** The [for ... of] loop of [downloadAsset] over the proxy list. *)
Fixpoint try_proxies (proxies : list (string -> string)) (url : string)
    (onProgress : bool) (lastError : option Thrown) : Async World Blob :=
  match proxies with
  | [] => throw (ErrorObj ("Download failed: " ++ last_message lastError))
  | makeProxyUrl :: rest =>
      try_catch
        (response <- fetch (makeProxyUrl url) ;;
         if negb (ok response) then throw (ErrorObj (show_N (status response)))
         else downloadWithProgress response onProgress)
        (fun e => try_proxies rest url onProgress (Some e))
  end.

Definition downloadAsset (url : string) (onProgress : bool) : Async World Blob :=
  try_proxies CORS_PROXIES url onProgress None.

(** The running byte count after each chunk of [pending], from [loaded]. *)
Fixpoint running_totals (loaded : Z) (pending : list (list byte)) : list Z :=
  match pending with
  | [] => []
  | value :: rest =>
      let loaded := loaded + Z.of_nat (List.length value) in
      loaded :: running_totals loaded rest
  end.

(** Total byte length of a sequence of chunks. *)
Definition total_length (chunks : list (list byte)) : Z :=
  fold_right (fun value n => Z.of_nat (List.length value) + n) 0 chunks.

(** The progress record built for a running byte count. *)
Definition progress_at (total loaded : Z) : DownloadProgress :=
  {| loaded := loaded; total := total; percentage := percentage_of loaded total |}.

(** Why a candidate fails, if it does, given how its [fetch] settles: a
    transport error, a non-success status, or a body that cannot be read
    to its end. *)
Definition candidate_failure (o : Settled Response) : option Thrown :=
  match o with
  | Rejected t => Some t
  | Resolved response =>
      if negb (ok response) then Some (ErrorObj (show_N (status response)))
      else
        match body response with
        | None =>
            match blob response with
            | Resolved _ => None
            | Rejected t => Some t
            end
        | Some b => Net.failure b
        end
  end.

(** The bytes a candidate delivers when it does not fail. *)
Definition candidate_bytes (o : Settled Response) : Blob :=
  match o with
  | Rejected _ => []
  | Resolved response =>
      match body response with
      | None =>
          match blob response with
          | Resolved b => b
          | Rejected _ => []
          end
      | Some b => blob_of_parts (Net.chunks b)
      end
  end.

(** The settlement of the [i]-th candidate's [fetch] in world [w]. *)
Definition candidate_outcome (w : World) (proxies : list (string -> string))
    (url : string) (i : nat) : Settled Response :=
  oracle w (List.length (requests w) + i)%nat
         (nth i (map (fun makeProxyUrl => makeProxyUrl url) proxies) "").

(** The value of a hexadecimal digit. *)
Definition unhex (c : ascii) : option N :=
  let n := N_of_ascii c in
  if ((48 <=? n) && (n <=? 57))%N then Some (n - 48)%N
  else if ((65 <=? n) && (n <=? 70))%N then Some (n - 55)%N
  else None.

(** Undo the percent-encoding: [%XX] becomes the byte [XX]. *)
Fixpoint percent_decode (s : string) : string :=
  match s with
  | EmptyString => EmptyString
  | String c rest =>
      if Ascii.eqb c "%" then
        match rest with
        | String h1 (String h2 rest') =>
            match unhex h1, unhex h2 with
            | Some a, Some b =>
                String (ascii_of_N (16 * a + b)) (percent_decode rest')
            | _, _ => String c (percent_decode rest)
            end
        | _ => String c (percent_decode rest)
        end
      else String c (percent_decode rest)
  end.

(** The progress records one candidate reports, given how its [fetch]
    settles: none unless the response is [ok] and has a body to read. *)
Definition candidate_progress (o : Settled Response) : list DownloadProgress :=
  match o with
  | Rejected _ => []
  | Resolved response =>
      if negb (ok response) then []
      else
        match body response with
        | None => []
        | Some b =>
            map (progress_at
                   match content_length response with
                   | Some n => n
                   | None => 0
                   end)
                (running_totals 0 (Net.chunks b))
        end
  end.

End Download.

(** ** services/download.ts, the single-proxy version *)
Module DownloadSingle.

Local Open Scope string_scope.
Local Open Scope async_scope.

(** CORS proxy for GitHub release asset downloads *)
Definition CORS_PROXY : string := "https://proxy.corsfix.com/?".

Definition proxiedUrl (url : string) : string :=
  CORS_PROXY ++ Download.encodeURIComponent url.

Definition downloadAsset (url : string) (onProgress : bool) : Async World Blob :=
  response <- fetch (proxiedUrl url) ;;
  if negb (ok response) then
    throw (ErrorObj ("Download failed: " ++ show_N (status response) ++ " " ++
                     statusText response))
  else
    let total := match content_length response with Some n => n | None => 0 end in
    match body response with
    | None =>
        (* Fallback for browsers without streaming support *)
        await (blob response)
    | Some b =>
        Download.read_loop onProgress total (Net.chunks b) (Net.failure b) [] 0
    end.

End DownloadSingle.

(** ** services/fastboot.ts *)
Module Fastboot.

(** The device's answer to [getVariable], per variable name. *)
Definition FastbootDevice : Type := string -> Settled (option string).

(** [getVariable]: [null] on any retrieval failure. *)
Definition getVariable (device : FastbootDevice) (name : string) : option string :=
  match device name with
  | Resolved v => v
  | Rejected _ => None
  end.

(** [unlocked === 'yes'] *)
Definition isBootloaderUnlocked (device : FastbootDevice) : bool :=
  match getVariable device "unlocked" with
  | Some v => String.eqb v "yes"
  | None => false
  end.

End Fastboot.

(** ** services/adb.ts *)
Module Adb.

Local Open Scope string_scope.
Local Open Scope async_scope.

(** The calls the service makes on the WebUSB device manager, the picked
    device and the ADB session. *)
Inductive Command : Type :=
| RequestDevice
| DeviceConnect
| Authenticate (serial : string)
| GetProp (name : string)
| PowerBootloader
| Close.

(** How the surroundings answer: whether the browser has a device manager
    ([AdbDaemonWebUsbDeviceManager.BROWSER]), the device the user picks
    (its serial; [None] is [undefined], a dismissed picker), and the
    settlements of the calls.  [modelFirst] says which of the two property
    reads of [getDeviceInfo] settles first. *)
Record Usb : Type := {
  browser : bool;
  requestDevice : Settled (option string);
  deviceConnect : Settled unit;
  authenticate : Settled unit;
  getProp : string -> Settled string;
  modelFirst : bool;
  powerBootloader : Settled unit;
  close : Settled unit
}.

(** The service object: its ADB session, known by the device serial. *)
Record AdbService : Type := {
  adb : option string
}.

Definition new_AdbService : AdbService := {| adb := None |}.

(** The methods run over the service object and the calls issued so far. *)
Definition St : Type := (AdbService * list Command)%type.

Definition get_adb : Async St (option string) :=
  fun s => (Resolved (adb (fst s)), s).

Definition set_adb (a : option string) : Async St unit :=
  fun s => (Resolved tt, ({| adb := a |}, snd s)).

(** Make a call; it is recorded when it is made. *)
Definition issue (cmd : Command) : Async St unit :=
  fun s => (Resolved tt, (fst s, (snd s ++ [cmd])%list)).

(** Make a call and wait for it. *)
Definition call {A} (cmd : Command) (r : Settled A) : Async St A :=
  issue cmd ;;; await r.

Definition isSupported (usb : Usb) : bool := browser usb.

Definition connect (usb : Usb) : Async St unit :=
  if negb (browser usb) then
    throw (ErrorObj "WebUSB is not supported in this browser")
  else
    device <- call RequestDevice (requestDevice usb) ;;
    match device with
    | None => throw (ErrorObj "No device selected")
    | Some serial =>
        call DeviceConnect (deviceConnect usb) ;;;
        call (Authenticate serial) (authenticate usb) ;;;
        set_adb (Some serial)
    end.

Definition getProperty (usb : Usb) (propName : string) : Async St string :=
  session <- get_adb ;;
  match session with
  | None => throw (ErrorObj "Not connected to device")
  | Some _ => call (GetProp propName) (getProp usb propName)
  end.

(** [Promise.all] of two promises: both values, or the reason of the
    promise that rejects first. *)
Definition promise_all2 {A B} (leftFirst : bool) (a : Settled A) (b : Settled B)
  : Settled (A * B) :=
  match a, b with
  | Resolved x, Resolved y => Resolved (x, y)
  | Rejected t, Resolved _ => Rejected t
  | Resolved _, Rejected t => Rejected t
  | Rejected t1, Rejected t2 => Rejected (if leftFirst then t1 else t2)
  end.

(** [getDeviceInfo]: the two [getProperty] calls are started one after the
    other, each running up to its own [await]; only then are they awaited
    together. *)
Definition getDeviceInfo (usb : Usb) : Async St DeviceInfo :=
  session <- get_adb ;;
  match session with
  | None => throw (ErrorObj "Not connected to device")
  | Some serial =>
      issue (GetProp "ro.product.model") ;;;
      issue (GetProp "ro.build.display.id") ;;;
      props <- await (promise_all2 (modelFirst usb)
                        (getProp usb "ro.product.model")
                        (getProp usb "ro.build.display.id")) ;;
      ret {| model := fst props; firmwareVersion := snd props;
             Types.serial := Some serial |}
  end.

Definition rebootToBootloader (usb : Usb) : Async St unit :=
  session <- get_adb ;;
  match session with
  | None => throw (ErrorObj "Not connected to device")
  | Some _ => call PowerBootloader (powerBootloader usb)
  end.

Definition disconnect (usb : Usb) : Async St unit :=
  session <- get_adb ;;
  match session with
  | None => ret tt
  | Some _ =>
      call Close (close usb) ;;;
      set_adb None
  end.

Definition isConnected (service : AdbService) : bool :=
  match adb service with
  | Some _ => true
  | None => false
  end.

End Adb.

(** ** App.tsx: the flow controller *)
Module Flow.

Import Version GitHub.
Local Open Scope string_scope.

(** What the controller takes from its surroundings: whether the browser
    has WebUSB ([AdbService.isSupported()]), [formatFileSize] (whose
    [toFixed] output is left to the caller) and the wall-clock string
    [new Date().toLocaleTimeString()] of the [n]-th log entry. *)
Record Env : Type := {
  webusb_supported : bool;
  formatFileSize : Z -> string;
  timeString : nat -> string
}.

Definition initialState : AppState :=
  {| state := IDLE;
     deviceInfo := None;
     matchedRelease := None;
     imageBlob := None;
     downloadProgress := None;
     flashProgress := None;
     error := None;
     logs := [] |}.

(** The suspension points of the handlers: each is one awaited service
    call.  [FastbootConnect] and [IsBootloaderUnlocked] carry the image the
    [flashImage] closure captured when [connectFastboot] was rendered. *)
Inductive Await : Type :=
| AdbConnect
| GetDeviceInfo
| FindMatchingRelease (info : DeviceInfo)
| DownloadAsset (asset : GitHubAsset)
| AdbRebootToBootloader
| AdbDisconnect
| FastbootConnect (captured : option Blob)
| IsBootloaderUnlocked (captured : option Blob)
| FlashInitBoot (image : Blob)
| FastbootReboot.

(** The controller: the React state, the three service references and the
    handler invocations that are suspended at an [await].  [sessions]
    counts the device-session pairs created so far, [calls] lists the
    service calls started and [fetched] the URLs requested. *)
Record Config : Type := {
  app : AppState;
  github : GitHubService;
  sessions : nat;
  tasks : list Await;
  calls : list Await;
  fetched : list string
}.

Definition init : Config :=
  {| app := initialState;
     github := new_GitHubService;
     sessions := 0;
     tasks := [];
     calls := [];
     fetched := [] |}.

Definition with_app (f : AppState -> AppState) (c : Config) : Config :=
  {| app := f (app c); github := github c; sessions := sessions c;
     tasks := tasks c; calls := calls c; fetched := fetched c |}.

(** Field updates of [AppState], as the object spreads write them. *)
Definition set_state (st : FlashState) (a : AppState) : AppState :=
  {| state := st; deviceInfo := deviceInfo a; matchedRelease := matchedRelease a;
     imageBlob := imageBlob a; downloadProgress := downloadProgress a;
     flashProgress := flashProgress a; error := error a; logs := logs a |}.

Definition set_deviceInfo (d : option DeviceInfo) (a : AppState) : AppState :=
  {| state := state a; deviceInfo := d; matchedRelease := matchedRelease a;
     imageBlob := imageBlob a; downloadProgress := downloadProgress a;
     flashProgress := flashProgress a; error := error a; logs := logs a |}.

Definition set_matchedRelease (r : option GitHubRelease) (a : AppState) : AppState :=
  {| state := state a; deviceInfo := deviceInfo a; matchedRelease := r;
     imageBlob := imageBlob a; downloadProgress := downloadProgress a;
     flashProgress := flashProgress a; error := error a; logs := logs a |}.

Definition set_imageBlob (b : option Blob) (a : AppState) : AppState :=
  {| state := state a; deviceInfo := deviceInfo a; matchedRelease := matchedRelease a;
     imageBlob := b; downloadProgress := downloadProgress a;
     flashProgress := flashProgress a; error := error a; logs := logs a |}.

Definition set_downloadProgress (p : option DownloadProgress) (a : AppState) : AppState :=
  {| state := state a; deviceInfo := deviceInfo a; matchedRelease := matchedRelease a;
     imageBlob := imageBlob a; downloadProgress := p;
     flashProgress := flashProgress a; error := error a; logs := logs a |}.

Definition set_flashProgress (p : option FlashProgress) (a : AppState) : AppState :=
  {| state := state a; deviceInfo := deviceInfo a; matchedRelease := matchedRelease a;
     imageBlob := imageBlob a; downloadProgress := downloadProgress a;
     flashProgress := p; error := error a; logs := logs a |}.

Definition set_error (e : option string) (a : AppState) : AppState :=
  {| state := state a; deviceInfo := deviceInfo a; matchedRelease := matchedRelease a;
     imageBlob := imageBlob a; downloadProgress := downloadProgress a;
     flashProgress := flashProgress a; error := e; logs := logs a |}.

Definition set_logs (l : list string) (a : AppState) : AppState :=
  {| state := state a; deviceInfo := deviceInfo a; matchedRelease := matchedRelease a;
     imageBlob := imageBlob a; downloadProgress := downloadProgress a;
     flashProgress := flashProgress a; error := error a; logs := l |}.

(** Handlers are written as pipelines over the configuration. *)
Notation "c |> f" := (f c) (at level 45, left associativity, only parsing).

(** The buttons [renderContent] shows, by the handler they invoke. *)
Inductive Button : Type :=
| BtnConnectAdb
| BtnReset
| BtnDownloadImage
| BtnConfirmFlash
| BtnRebootToBootloader
| BtnConnectFastboot.

Definition renders (st : FlashState) (b : Button) : bool :=
  match st, b with
  | IDLE, BtnConnectAdb
  | WAITING_ADB_CONNECT, BtnConnectAdb
  | RELEASE_NOT_FOUND, BtnReset
  | RELEASE_MATCHED, BtnDownloadImage
  | DOWNLOAD_COMPLETE, BtnConfirmFlash
  | CONFIRMING_FLASH, BtnReset
  | CONFIRMING_FLASH, BtnRebootToBootloader
  | WAITING_FASTBOOT, BtnConnectFastboot
  | SUCCESS, BtnReset
  | ERROR, BtnReset => true
  | _, _ => false
  end.

(** How an awaited service call settles.  [Network] gives the behaviour of
    the network during the call; [Flashed] lists the fractions the flash
    progress callback is invoked with before the call settles. *)
Inductive Outcome : Type :=
| Device (r : Settled unit)
| DeviceInfoRead (r : Settled DeviceInfo)
| Network (o : Oracle)
| FastbootConnected (r : Settled bool)
| VariableRead (device : Fastboot.FastbootDevice)
| Flashed (fractions : list Q) (r : Settled unit).

Inductive Event : Type :=
| Click (b : Button)
| Settle (i : nat) (o : Outcome).

Section Handlers.

Variable env : Env.

Definition addLog (message : string) (c : Config) : Config :=
  with_app (fun a =>
    let entry := "[" ++ timeString env (List.length (logs a)) ++ "] " ++ message in
    set_logs (logs a ++ [entry])%list a) c.

Definition setState (st : FlashState) (c : Config) : Config :=
  with_app (set_state st) c.

Definition setError (error : string) (c : Config) : Config :=
  c |> addLog ("Error: " ++ error)
    |> with_app (fun a => set_error (Some error) (set_state ERROR a)).

(** Start a service call and suspend on it. *)
Definition start (a : Await) (c : Config) : Config :=
  {| app := app c; github := github c; sessions := sessions c;
     tasks := (tasks c ++ [a])%list; calls := (calls c ++ [a])%list;
     fetched := fetched c |}.

Definition checkBrowser (c : Config) : bool * Config :=
  if webusb_supported env then
    (true, c |> addLog "WebUSB is supported")
  else
    (false, c |> addLog "WebUSB is not supported in this browser"
              |> setState BROWSER_UNSUPPORTED).

(** Each handler is split at its [await]s: the part before the first one,
    and for every suspension point the part that runs once it settles. *)
Definition detectFirmware (c : Config) : Config :=
  c |> setState DETECTING_FIRMWARE
    |> addLog "Reading device information..."
    |> start GetDeviceInfo.

Definition findRelease (info : DeviceInfo) (c : Config) : Config :=
  c |> setState FETCHING_RELEASES
    |> addLog "Fetching available releases..."
    |> start (FindMatchingRelease info).

Definition connectAdb (c : Config) : Config :=
  let (supported, c) := checkBrowser c in
  if supported then
    c |> setState ADB_CONNECTING
      |> addLog "Connecting to device via ADB..."
      |> start AdbConnect
  else c.

Definition after_AdbConnect (r : Settled unit) (c : Config) : Config :=
  match r with
  | Resolved _ =>
      c |> addLog "ADB connection established"
        |> setState ADB_CONNECTED
        |> detectFirmware
  | Rejected err =>
      let message := catch_message err in
      if includes message "No device selected" then
        c |> setState WAITING_ADB_CONNECT
          |> addLog "Device selection cancelled"
      else
        c |> setError ("ADB connection failed: " ++ message)
  end.

Definition after_GetDeviceInfo (r : Settled DeviceInfo) (c : Config) : Config :=
  match r with
  | Resolved info =>
      let c := c |> addLog ("Device: " ++ model info)
                 |> addLog ("Firmware: " ++ firmwareVersion info) in
      match parseVersion (firmwareVersion info) with
      | Some parsed =>
          if isOnePlusOpen (modelCode parsed) then
            c |> with_app (fun a =>
                   set_deviceInfo (Some info) (set_state FIRMWARE_DETECTED a))
              |> findRelease info
          else
            c |> setError "This tool only supports OnePlus Open (CPH2551)"
      | None =>
          c |> setError "This tool only supports OnePlus Open (CPH2551)"
      end
  | Rejected err =>
      c |> setError ("Failed to read device info: " ++ catch_message err)
  end.

(** [githubService.current.findMatchingRelease] against the network [o]. *)
Definition call_findMatchingRelease (firmwareVersion : string) (o : Oracle)
    (c : Config) : Settled (option GitHubRelease) * Config :=
  let (r, s) := findMatchingRelease firmwareVersion (github c, new_world o) in
  (r, {| app := app c; github := fst s; sessions := sessions c;
         tasks := tasks c; calls := calls c;
         fetched := (fetched c ++ requests (snd s))%list |}).

Definition after_FindMatchingRelease (info : DeviceInfo) (o : Oracle)
    (c : Config) : Config :=
  let (r, c) := call_findMatchingRelease (firmwareVersion info) o c in
  match r with
  | Resolved None =>
      c |> addLog ("No release found for firmware " ++ firmwareVersion info)
        |> setState RELEASE_NOT_FOUND
  | Resolved (Some release) =>
      match getPatchedImageAsset release with
      | None => c |> setError "Release found but no patched image available"
      | Some asset =>
          c |> addLog ("Found matching release: " ++ tag_name release)
            |> addLog ("Patched image: " ++ name asset ++ " (" ++
                       formatFileSize env (size asset) ++ ")")
            |> with_app (fun a =>
                 set_matchedRelease (Some release) (set_state RELEASE_MATCHED a))
      end
  | Rejected err =>
      c |> setError ("Failed to fetch releases: " ++ catch_message err)
  end.

Definition downloadImage (c : Config) : Config :=
  match matchedRelease (app c) with
  | None => c
  | Some release =>
      match getPatchedImageAsset release with
      | None => c
      | Some asset =>
          c |> with_app (fun a =>
                 set_downloadProgress
                   (Some {| loaded := 0; total := size asset; percentage := 0 |})
                   (set_state DOWNLOADING_IMAGE a))
            |> addLog "Downloading patched image..."
            |> start (DownloadAsset asset)
      end
  end.

(** [progress => setAppState(prev => ({ ...prev, downloadProgress: progress }))] *)
Definition onDownloadProgress (a : AppState) (p : DownloadProgress) : AppState :=
  set_downloadProgress (Some p) a.

(** [downloadAsset(url, onDownloadProgress)] against the network [o]; the
    callback invocations are applied in the order they were made. *)
Definition call_downloadAsset (url : string) (o : Oracle) (c : Config)
  : Settled Blob * Config :=
  let (r, w) := Download.downloadAsset url true (new_world o) in
  (r, {| app := fold_left onDownloadProgress (progress_calls w) (app c);
         github := github c; sessions := sessions c;
         tasks := tasks c; calls := calls c;
         fetched := (fetched c ++ requests w)%list |}).

Definition after_DownloadAsset (asset : GitHubAsset) (o : Oracle)
    (c : Config) : Config :=
  let (r, c) := call_downloadAsset (browser_download_url asset) o c in
  match r with
  | Resolved blob =>
      c |> addLog ("Download complete: " ++ formatFileSize env (blob_size blob))
        |> with_app (fun a =>
             set_downloadProgress None
               (set_imageBlob (Some blob) (set_state DOWNLOAD_COMPLETE a)))
  | Rejected err =>
      c |> setError ("Download failed: " ++ catch_message err)
  end.

Definition confirmFlash (c : Config) : Config :=
  c |> setState CONFIRMING_FLASH.

Definition rebootToBootloader (c : Config) : Config :=
  c |> setState REBOOTING_BOOTLOADER
    |> addLog "Rebooting to bootloader..."
    |> start AdbRebootToBootloader.

Definition after_AdbRebootToBootloader (r : Settled unit) (c : Config) : Config :=
  match r with
  | Resolved _ => c |> start AdbDisconnect
  | Rejected err => c |> setError ("Failed to reboot: " ++ catch_message err)
  end.

Definition after_AdbDisconnect (r : Settled unit) (c : Config) : Config :=
  match r with
  | Resolved _ =>
      c |> addLog "Device is rebooting to bootloader"
        |> addLog "Please wait for the device to enter fastboot mode..."
        |> setState WAITING_FASTBOOT
  | Rejected err => c |> setError ("Failed to reboot: " ++ catch_message err)
  end.

Definition connectFastboot (c : Config) : Config :=
  c |> setState FASTBOOT_CONNECTING
    |> addLog "Connecting to device in fastboot mode..."
    |> start (FastbootConnect (imageBlob (app c))).

(** The [catch] clause of [connectFastboot]. *)
Definition catch_connectFastboot (err : Thrown) (c : Config) : Config :=
  let message := catch_message err in
  if includes message "No device selected" || includes message "cancelled" then
    c |> setState WAITING_FASTBOOT
      |> addLog "Device selection cancelled"
  else
    c |> setError ("Fastboot connection failed: " ++ message).

Definition after_FastbootConnect (captured : option Blob) (r : Settled bool)
    (c : Config) : Config :=
  match r with
  | Resolved isConnected =>
      if isConnected then c |> start (IsBootloaderUnlocked captured)
      else c |> catch_connectFastboot
                  (ErrorObj "Failed to establish fastboot connection")
  | Rejected err => c |> catch_connectFastboot err
  end.

Definition flashImage (captured : option Blob) (c : Config) : Config :=
  match captured with
  | None => c
  | Some blob =>
      c |> with_app (fun a =>
             set_flashProgress
               (Some {| action := "preparing"; partition := "init_boot";
                        progress := 0 |})
               (set_state FLASHING a))
        |> addLog "Flashing init_boot partition..."
        |> start (FlashInitBoot blob)
  end.

Definition after_IsBootloaderUnlocked (captured : option Blob)
    (device : Fastboot.FastbootDevice) (c : Config) : Config :=
  if Fastboot.isBootloaderUnlocked device then
    c |> addLog "Fastboot connection established"
      |> addLog "Bootloader is unlocked"
      |> setState FASTBOOT_CONNECTED
      |> flashImage captured
  else
    c |> setError "Bootloader is locked. Please unlock it first before flashing.".

Definition rebootSystem (c : Config) : Config :=
  c |> setState REBOOTING_SYSTEM
    |> addLog "Rebooting to system..."
    |> start FastbootReboot.

(** The callback [flashInitBoot] hands to [flashBlob], composed with the
    one [flashImage] hands to [flashInitBoot]: each fraction the device
    reports overwrites [flashProgress]. *)
Definition onFlashProgress (a : AppState) (fraction : Q) : AppState :=
  set_flashProgress
    (Some {| action := "flashing"; partition := "init_boot";
             progress := fraction |}) a.

Definition after_FlashInitBoot (fractions : list Q) (r : Settled unit)
    (c : Config) : Config :=
  let c := c |> with_app (fold_left onFlashProgress fractions) in
  match r with
  | Resolved _ =>
      c |> addLog "Flash complete!"
        |> with_app (fun a => set_flashProgress None (set_state FLASH_COMPLETE a))
        |> rebootSystem
  | Rejected err => c |> setError ("Flash failed: " ++ catch_message err)
  end.

Definition after_FastbootReboot (r : Settled unit) (c : Config) : Config :=
  match r with
  | Resolved _ =>
      c |> addLog "Device is rebooting"
        |> setState SUCCESS
  | Rejected _ =>
      (* Reboot command might not return properly, treat as success *)
      c |> addLog "Reboot command sent"
        |> setState SUCCESS
  end.

(** [reset]: new ADB and fastboot service objects, initial React state. *)
Definition reset (c : Config) : Config :=
  {| app := initialState; github := github c; sessions := S (sessions c);
     tasks := tasks c; calls := calls c; fetched := fetched c |}.

Definition handle (b : Button) (c : Config) : Config :=
  match b with
  | BtnConnectAdb => connectAdb c
  | BtnReset => reset c
  | BtnDownloadImage => downloadImage c
  | BtnConfirmFlash => confirmFlash c
  | BtnRebootToBootloader => rebootToBootloader c
  | BtnConnectFastboot => connectFastboot c
  end.

(** The continuation of a suspended handler once its call has settled. *)
Definition resume (a : Await) (o : Outcome) (c : Config) : option Config :=
  match a, o with
  | AdbConnect, Device r => Some (after_AdbConnect r c)
  | GetDeviceInfo, DeviceInfoRead r => Some (after_GetDeviceInfo r c)
  | FindMatchingRelease info, Network o => Some (after_FindMatchingRelease info o c)
  | DownloadAsset asset, Network o => Some (after_DownloadAsset asset o c)
  | AdbRebootToBootloader, Device r => Some (after_AdbRebootToBootloader r c)
  | AdbDisconnect, Device r => Some (after_AdbDisconnect r c)
  | FastbootConnect captured, FastbootConnected r =>
      Some (after_FastbootConnect captured r c)
  | IsBootloaderUnlocked captured, VariableRead device =>
      Some (after_IsBootloaderUnlocked captured device c)
  | FlashInitBoot _, Flashed fractions r => Some (after_FlashInitBoot fractions r c)
  | FastbootReboot, Device r => Some (after_FastbootReboot r c)
  | _, _ => None
  end.

Fixpoint remove_nth {A} (i : nat) (l : list A) : list A :=
  match i, l with
  | _, [] => []
  | O, _ :: l' => l'
  | S i', x :: l' => x :: remove_nth i' l'
  end.

Definition drop_task (i : nat) (c : Config) : Config :=
  {| app := app c; github := github c; sessions := sessions c;
     tasks := remove_nth i (tasks c); calls := calls c; fetched := fetched c |}.

(** One step of the controller: the user clicks a button that is on
    screen, or the call the [i]-th suspended handler waits for settles. *)
Definition step (c : Config) (e : Event) : option Config :=
  match e with
  | Click b => if renders (state (app c)) b then Some (handle b c) else None
  | Settle i o =>
      match nth_error (tasks c) i with
      | Some a => resume a o (drop_task i c)
      | None => None
      end
  end.

Fixpoint run (c : Config) (es : list Event) : option Config :=
  match es with
  | [] => Some c
  | e :: es' =>
      match step c e with
      | Some c' => run c' es'
      | None => None
      end
  end.

Inductive reachable : Config -> Prop :=
| reach_init : reachable init
| reach_step c e c' : reachable c -> step c e = Some c' -> reachable c'.

End Handlers.

(** The state that stands for "this call is in progress". *)
Definition in_progress (a : Await) : FlashState :=
  match a with
  | AdbConnect => ADB_CONNECTING
  | GetDeviceInfo => DETECTING_FIRMWARE
  | FindMatchingRelease _ => FETCHING_RELEASES
  | DownloadAsset _ => DOWNLOADING_IMAGE
  | AdbRebootToBootloader | AdbDisconnect => REBOOTING_BOOTLOADER
  | FastbootConnect _ | IsBootloaderUnlocked _ => FASTBOOT_CONNECTING
  | FlashInitBoot _ => FLASHING
  | FastbootReboot => REBOOTING_SYSTEM
  end.

(** Single flight: at most one handler is suspended, and the state shown
    is the one that stands for the call it waits for. *)
Definition single_flight (c : Config) : Prop :=
  match tasks c with
  | [] => True
  | [a] => state (app c) = in_progress a
  | _ :: _ :: _ => False
  end.

(** The states the run passes through before an image has been downloaded. *)
Definition before_download (st : FlashState) : bool :=
  match st with
  | IDLE | BROWSER_UNSUPPORTED | WAITING_ADB_CONNECT | ADB_CONNECTING
  | ADB_CONNECTED | DETECTING_FIRMWARE | FIRMWARE_DETECTED | FETCHING_RELEASES
  | RELEASE_NOT_FOUND | RELEASE_MATCHED | DOWNLOADING_IMAGE => true
  | _ => false
  end.

(** Until a download has completed there is no image, and while one is
    running a progress record is present. *)
Definition no_image_yet (c : Config) : Prop :=
  (before_download (state (app c)) = true -> imageBlob (app c) = None) /\
  (state (app c) = DOWNLOADING_IMAGE -> downloadProgress (app c) <> None).

(** A settlement that is a failure of the awaited call: the promise
    rejects, or (for the unlock check, whose service wrapper swallows
    rejections) the device fails to answer. *)
Definition failed (c : Config) (a : Await) (o : Outcome) : Prop :=
  match a, o with
  | FindMatchingRelease info, Network n =>
      exists t, fst (findMatchingRelease (firmwareVersion info)
                       (github c, new_world n)) = Rejected t
  | DownloadAsset asset, Network n =>
      exists t, fst (Download.downloadAsset (browser_download_url asset) true
                       (new_world n)) = Rejected t
  | IsBootloaderUnlocked _, VariableRead device =>
      exists t, device "unlocked" = Rejected t
  | _, Device (Rejected _)
  | _, DeviceInfoRead (Rejected _)
  | _, FastbootConnected (Rejected _)
  | _, Flashed _ (Rejected _) => True
  | _, _ => False
  end.

(** A device-selection prompt dismissed by the user, as the [catch]
    clauses of the two connect handlers recognise it. *)
Definition cancelled (a : Await) (o : Outcome) : bool :=
  match a, o with
  | AdbConnect, Device (Rejected t) =>
      includes (catch_message t) "No device selected"
  | FastbootConnect _, FastbootConnected (Rejected t) =>
      includes (catch_message t) "No device selected" ||
      includes (catch_message t) "cancelled"
  | _, _ => false
  end.

(** The message the handler passes to [setError] when the settlement [o]
    of the call [a] ends the run in the error state; [None] where the
    handler has no [setError] for such a settlement. *)
Definition error_text (c : Config) (a : Await) (o : Outcome) : option string :=
  match a, o with
  | AdbConnect, Device (Rejected t) =>
      Some ("ADB connection failed: " ++ catch_message t)
  | GetDeviceInfo, DeviceInfoRead (Rejected t) =>
      Some ("Failed to read device info: " ++ catch_message t)
  | GetDeviceInfo, DeviceInfoRead (Resolved _) =>
      Some "This tool only supports OnePlus Open (CPH2551)"
  | FindMatchingRelease info, Network n =>
      match fst (findMatchingRelease (firmwareVersion info)
                   (github c, new_world n)) with
      | Rejected t => Some ("Failed to fetch releases: " ++ catch_message t)
      | Resolved (Some _) => Some "Release found but no patched image available"
      | Resolved None => None
      end
  | DownloadAsset asset, Network n =>
      match fst (Download.downloadAsset (browser_download_url asset) true
                   (new_world n)) with
      | Rejected t => Some ("Download failed: " ++ catch_message t)
      | Resolved _ => None
      end
  | AdbRebootToBootloader, Device (Rejected t)
  | AdbDisconnect, Device (Rejected t) =>
      Some ("Failed to reboot: " ++ catch_message t)
  | FastbootConnect _, FastbootConnected (Rejected t) =>
      Some ("Fastboot connection failed: " ++ catch_message t)
  | FastbootConnect _, FastbootConnected (Resolved false) =>
      Some "Fastboot connection failed: Failed to establish fastboot connection"
  | IsBootloaderUnlocked _, VariableRead _ =>
      Some "Bootloader is locked. Please unlock it first before flashing."
  | FlashInitBoot _, Flashed _ (Rejected t) =>
      Some ("Flash failed: " ++ catch_message t)
  | _, _ => None
  end.

(** The records the download progress callback is invoked with while the
    call [a] runs to its settlement [o], and the records the flash
    progress callback writes. *)
Definition reported_download (a : Await) (o : Outcome) : list DownloadProgress :=
  match a, o with
  | DownloadAsset asset, Network n =>
      progress_calls (snd (Download.downloadAsset (browser_download_url asset)
                             true (new_world n)))
  | _, _ => []
  end.

Definition reported_flash (a : Await) (o : Outcome) : list FlashProgress :=
  match a, o with
  | FlashInitBoot _, Flashed fractions _ =>
      map (fun fraction =>
             {| action := "flashing"; partition := "init_boot";
                progress := fraction |}) fractions
  | _, _ => []
  end.

(** What a progress field holds after the records [reported] were written
    to it one after the other: the last of them, or what it held before
    when there is none. *)
Definition last_value {A} (reported : list A) (before : option A) : option A :=
  match rev reported with
  | [] => before
  | p :: _ => Some p
  end.

(** The reading of the specification under which entering the error state
    clears the progress records of the failed step. *)
Definition error_clears_progress (env : Env) : Prop :=
  forall c e c',
    reachable env c -> step env c e = Some c' ->
    state (app c) <> ERROR -> state (app c') = ERROR ->
    downloadProgress (app c') = None /\ flashProgress (app c') = None.

(** The reading of the specification under which a full reset clears the
    release cache. *)
Definition reset_clears_cache (env : Env) : Prop :=
  forall c c',
    reachable env c -> step env c (Click BtnReset) = Some c' ->
    releasesCache (github c') = None.

(** A device the tool accepts: its firmware identifier parses and names
    the OnePlus Open. *)
Definition eligible (d : DeviceInfo) : Prop :=
  exists parsed,
    parseVersion (firmwareVersion d) = Some parsed /\
    isOnePlusOpen (modelCode parsed) = true.

Definition is_error (st : FlashState) : bool :=
  match st with
  | ERROR => true
  | _ => false
  end.

(** The states in which the device has been identified. *)
Definition device_known (st : FlashState) : bool :=
  match st with
  | FIRMWARE_DETECTED | FETCHING_RELEASES | RELEASE_NOT_FOUND | RELEASE_MATCHED
  | DOWNLOADING_IMAGE | DOWNLOAD_COMPLETE | CONFIRMING_FLASH
  | REBOOTING_BOOTLOADER | WAITING_FASTBOOT | FASTBOOT_CONNECTING
  | FASTBOOT_CONNECTED | FLASHING | FLASH_COMPLETE | REBOOTING_SYSTEM
  | SUCCESS => true
  | _ => false
  end.

(** The states in which a release has been matched. *)
Definition release_known (st : FlashState) : bool :=
  match st with
  | RELEASE_MATCHED | DOWNLOADING_IMAGE | DOWNLOAD_COMPLETE | CONFIRMING_FLASH
  | REBOOTING_BOOTLOADER | WAITING_FASTBOOT | FASTBOOT_CONNECTING
  | FASTBOOT_CONNECTED | FLASHING | FLASH_COMPLETE | REBOOTING_SYSTEM
  | SUCCESS => true
  | _ => false
  end.

(** The states in which the image has been downloaded. *)
Definition image_known (st : FlashState) : bool :=
  match st with
  | DOWNLOAD_COMPLETE | CONFIRMING_FLASH
  | REBOOTING_BOOTLOADER | WAITING_FASTBOOT | FASTBOOT_CONNECTING
  | FASTBOOT_CONNECTED | FLASHING | FLASH_COMPLETE | REBOOTING_SYSTEM
  | SUCCESS => true
  | _ => false
  end.

(** What a suspended handler holds agrees with the React state. *)
Definition task_ok (ap : AppState) (a : Await) : Prop :=
  match a with
  | FindMatchingRelease info => deviceInfo ap = Some info
  | DownloadAsset asset =>
      exists release,
        matchedRelease ap = Some release /\
        getPatchedImageAsset release = Some asset
  | FastbootConnect captured | IsBootloaderUnlocked captured =>
      captured = imageBlob ap
  | FlashInitBoot image => imageBlob ap = Some image
  | _ => True
  end.

(** What has to have happened for a call to be started: each call of the
    sequence follows the success of the one before it, or a click. *)
Definition started_by (c : Config) (e : Event) (a : Await) : Prop :=
  match a with
  | AdbConnect =>
      e = Click BtnConnectAdb
  | GetDeviceInfo =>
      tasks c = [AdbConnect] /\ exists u, e = Settle 0 (Device (Resolved u))
  | FindMatchingRelease info =>
      tasks c = [GetDeviceInfo] /\
      e = Settle 0 (DeviceInfoRead (Resolved info)) /\ eligible info
  | DownloadAsset _ =>
      e = Click BtnDownloadImage /\ state (app c) = RELEASE_MATCHED
  | AdbRebootToBootloader =>
      e = Click BtnRebootToBootloader /\ state (app c) = CONFIRMING_FLASH
  | AdbDisconnect =>
      tasks c = [AdbRebootToBootloader] /\
      exists u, e = Settle 0 (Device (Resolved u))
  | FastbootConnect _ =>
      e = Click BtnConnectFastboot /\ state (app c) = WAITING_FASTBOOT
  | IsBootloaderUnlocked captured =>
      tasks c = [FastbootConnect captured] /\
      e = Settle 0 (FastbootConnected (Resolved true))
  | FlashInitBoot _ =>
      exists captured device,
        tasks c = [IsBootloaderUnlocked captured] /\
        e = Settle 0 (VariableRead device) /\
        Fastboot.isBootloaderUnlocked device = true
  | FastbootReboot =>
      exists image fractions u,
        tasks c = [FlashInitBoot image] /\
        e = Settle 0 (Flashed fractions (Resolved u))
  end.

(** Two configurations the controller cannot tell apart: it reads the
    React state, the catalogue service and the suspended handlers, never
    the session count or the records of calls and requests. *)
Definition same_run (c1 c2 : Config) : Prop :=
  app c1 = app c2 /\ github c1 = github c2 /\ tasks c1 = tasks c2.

(** A freshly loaded page whose catalogue service is [g]. *)
Definition fresh (g : GitHubService) : Config :=
  {| app := initialState; github := g; sessions := 0; tasks := [];
     calls := []; fetched := [] |}.

(** The run data the controller keeps, by the state it is in. *)
Definition run_data_ok (c : Config) : Prop :=
  (is_error (state (app c)) = true -> error (app c) <> None) /\
  (is_error (state (app c)) = false -> error (app c) = None) /\
  (is_error (state (app c)) = false ->
     state (app c) <> DOWNLOADING_IMAGE -> downloadProgress (app c) = None) /\
  (is_error (state (app c)) = false ->
     state (app c) <> FLASHING -> flashProgress (app c) = None) /\
  (forall d, deviceInfo (app c) = Some d -> eligible d) /\
  (device_known (state (app c)) = true -> deviceInfo (app c) <> None) /\
  (is_error (state (app c)) = false ->
     device_known (state (app c)) = false -> deviceInfo (app c) = None) /\
  (forall release,
     matchedRelease (app c) = Some release ->
     exists d asset,
       deviceInfo (app c) = Some d /\
       tag_name release = firmwareVersion d /\
       getPatchedImageAsset release = Some asset) /\
  (is_error (state (app c)) = false ->
     release_known (state (app c)) = false -> matchedRelease (app c) = None) /\
  (release_known (state (app c)) = true -> matchedRelease (app c) <> None) /\
  (image_known (state (app c)) = true -> imageBlob (app c) <> None) /\
  Forall (task_ok (app c)) (tasks c).

End Flow.

(** ** A concrete run, after the scenarios of the specification *)
Module Scenario.

Import Flow.
Local Open Scope string_scope.

Definition env : Env :=
  {| webusb_supported := true;
     formatFileSize := fun bytes => show_N (Z.to_N bytes) ++ " B";
     timeString := fun _ => "12:00:00" |}.

Definition firmware : string := "CPH2551_15.0.0.822(EX01)".

Definition patched : GitHubAsset :=
  {| name := "magisk_patched_init_boot.img";
     browser_download_url := "https://example.org/magisk_patched_init_boot.img";
     size := 50000000 |}.

Definition release : GitHubRelease :=
  {| tag_name := firmware; release_name := "822";
     published_at := "2025-01-01T00:00:00Z"; assets := [patched] |}.

Definition older : GitHubRelease :=
  {| tag_name := "CPH2551_15.0.0.821(EX01)"; release_name := "821";
     published_at := "2024-12-01T00:00:00Z"; assets := [] |}.

Definition catalogue : list GitHubRelease := [older; release].

Definition respond (ok : bool) (status : N) (statusText : string)
    (json : Settled (list GitHubRelease)) (body : option Body) : Response :=
  {| Net.ok := ok; Net.status := status; Net.statusText := statusText;
     content_length := None; Net.json := json; Net.body := body;
     blob := Rejected NonError |}.

Definition net_catalogue : Oracle :=
  fun _ _ => Resolved (respond true 200 "OK" (Resolved catalogue) None).

Definition net_unavailable : Oracle :=
  fun _ _ => Resolved (respond false 503 "Service Unavailable"
                               (Rejected NonError) None).

Definition image_chunks : list (list byte) := [[x01; x02]; [x03]].

Definition image_body : Body := {| chunks := image_chunks; failure := None |}.

Definition net_image : Oracle :=
  fun _ _ => Resolved (respond true 200 "OK" (Rejected NonError) (Some image_body)).

(** A proxy whose stream breaks after the first chunk. *)
Definition net_broken : Oracle :=
  fun _ _ => Resolved (respond true 200 "OK" (Rejected NonError)
               (Some {| chunks := [[x01; x02]];
                        failure := Some (ErrorObj "network error") |})).

(** Two proxies: the first answers 502, the second 504. *)
Definition two_proxies : list (string -> string) :=
  [ (fun url => "https://a.example/?" ++ url);
    (fun url => "https://b.example/?" ++ url) ].

Definition net_gateways : Oracle :=
  fun n _ =>
    match n with
    | O => Resolved (respond false 502 "Bad Gateway" (Rejected NonError) None)
    | _ => Resolved (respond false 504 "Gateway Timeout" (Rejected NonError) None)
    end.

Definition phone : DeviceInfo :=
  {| model := "CPH2551"; firmwareVersion := firmware; serial := Some "1a2b3c" |}.

Definition unlocked_phone : Fastboot.FastbootDevice :=
  fun name => if String.eqb name "unlocked" then Resolved (Some "yes")
              else Resolved None.

Definition locked_phone : Fastboot.FastbootDevice :=
  fun name => if String.eqb name "unlocked" then Resolved (Some "no")
              else Resolved None.

Definition to_release_matched : list Event :=
  [ Click BtnConnectAdb;
    Settle 0 (Device (Resolved tt));
    Settle 0 (DeviceInfoRead (Resolved phone));
    Settle 0 (Network net_catalogue) ].

Definition to_failed_download : list Event :=
  (to_release_matched ++
   [ Click BtnDownloadImage; Settle 0 (Network net_broken) ])%list.

Definition to_waiting_fastboot : list Event :=
  (to_release_matched ++
   [ Click BtnDownloadImage; Settle 0 (Network net_image);
     Click BtnConfirmFlash; Click BtnRebootToBootloader;
     Settle 0 (Device (Resolved tt)); Settle 0 (Device (Resolved tt)) ])%list.

Definition to_unlock_check : list Event :=
  (to_waiting_fastboot ++
   [ Click BtnConnectFastboot; Settle 0 (FastbootConnected (Resolved true)) ])%list.

Definition to_reboot : list Event :=
  (to_unlock_check ++
   [ Settle 0 (VariableRead unlocked_phone);
     Settle 0 (Flashed [1 # 2; 1 # 1]%Q (Resolved tt)) ])%list.

(** The configuration a run ends in ([init] if an event is not enabled). *)
Definition after (es : list Event) : Config :=
  match run env init es with
  | Some c => c
  | None => init
  end.

(** The same surroundings in a browser without WebUSB. *)
Definition env_without_webusb : Env :=
  {| webusb_supported := false;
     formatFileSize := Version.formatFileSize;
     timeString := fun _ => "12:00:00" |}.

(** The configuration a run ends in, in surroundings [e]. *)
Definition after_in (e : Env) (es : list Event) : Config :=
  match run e init es with
  | Some c => c
  | None => init
  end.

(** The phone on the ADB side: the user picks it and everything succeeds. *)
Definition usb_phone : Adb.Usb :=
  {| Adb.browser := true;
     Adb.requestDevice := Resolved (Some "1a2b3c");
     Adb.deviceConnect := Resolved tt;
     Adb.authenticate := Resolved tt;
     Adb.getProp := fun name =>
       if String.eqb name "ro.product.model" then Resolved "CPH2551"
       else if String.eqb name "ro.build.display.id" then Resolved firmware
       else Rejected (ErrorObj "unknown property");
     Adb.modelFirst := true;
     Adb.powerBootloader := Resolved tt;
     Adb.close := Resolved tt |}.

(** The user dismisses the device picker. *)
Definition usb_dismissed : Adb.Usb :=
  {| Adb.browser := true;
     Adb.requestDevice := Resolved None;
     Adb.deviceConnect := Resolved tt;
     Adb.authenticate := Resolved tt;
     Adb.getProp := fun _ => Rejected (ErrorObj "unknown property");
     Adb.modelFirst := true;
     Adb.powerBootloader := Resolved tt;
     Adb.close := Resolved tt |}.

Definition connected_service : Adb.AdbService := {| Adb.adb := Some "1a2b3c" |}.

(** Another model: its identifier parses, the tool does not accept it. *)
Definition other_phone : DeviceInfo :=
  {| model := "CPH9999"; firmwareVersion := "CPH9999_1.0.0.0(WW01)";
     serial := None |}.

Definition to_device_read : list Event :=
  [ Click BtnConnectAdb; Settle 0 (Device (Resolved tt)) ].

End Scenario.

(** * Properties *)

(** ** Firmware identifiers *)
Section VersionFacts.

Import Version.
Local Open Scope string_scope.

Lemma append_assoc (a b c : string) : (a ++ b) ++ c = a ++ (b ++ c).
Proof. induction a as [|x a IH]; simpl; [reflexivity | now rewrite IH]. Qed.

Lemma span_sound p s a b :
  span p s = (a, b) -> s = a ++ b /\ all_chars p a = true /\ stops p b = true.
Proof.
  revert a b; induction s as [|c s IH]; simpl; intros a b H.
  - inversion H; subst; auto.
  - destruct (p c) eqn:Hc.
    + destruct (span p s) as [a' b'] eqn:Hs. inversion H; subst; clear H.
      destruct (IH a' b eq_refl) as (-> & Ha & Hb).
      simpl. rewrite Hc, Ha. auto.
    + inversion H; subst; clear H. simpl. rewrite Hc. auto.
Qed.

Lemma span_complete p a b :
  all_chars p a = true -> stops p b = true -> span p (a ++ b) = (a, b).
Proof.
  intros Ha Hb; induction a as [|c a IH]; simpl in *.
  - destruct b as [|x b]; simpl in *; [reflexivity|].
    destruct (p x); [discriminate | reflexivity].
  - apply andb_true_iff in Ha as [Hc Ha]. rewrite Hc, (IH Ha). reflexivity.
Qed.

Lemma many1_sound p s a b :
  many1 p s = Some (a, b) ->
  s = a ++ b /\ some_chars p a = true /\ stops p b = true.
Proof.
  unfold many1. destruct (span p s) as [a' b'] eqn:Hs.
  destruct a' as [|c a']; [discriminate|].
  intros H; inversion H; subst; clear H.
  destruct (span_sound _ _ Hs) as (E & Ha & Hb). auto.
Qed.

Lemma many1_complete p a b :
  some_chars p a = true -> stops p b = true -> many1 p (a ++ b) = Some (a, b).
Proof.
  intros Ha Hb. unfold many1.
  destruct a as [|c a]; [discriminate|].
  simpl in Ha. now rewrite (span_complete _ (String c a) b Ha Hb).
Qed.

Lemma lit_sound l s r : lit l s = Some r -> s = l ++ r.
Proof.
  revert s; induction l as [|a l IH]; simpl; intros s H.
  - congruence.
  - destruct s as [|b s]; [discriminate|].
    destruct (Ascii.eqb_spec a b); [subst|discriminate].
    now rewrite (IH _ H).
Qed.

Lemma lit_complete l r : lit l (l ++ r) = Some r.
Proof.
  induction l as [|a l IH]; simpl; [reflexivity|].
  now rewrite Ascii.eqb_refl.
Qed.

Lemma parseVersion_sound s pv :
  parseVersion s = Some pv ->
  firmware_form s (modelCode pv) (version pv) (regionCode pv) /\
  fullVersion pv = s.
Proof.
  unfold parseVersion, bindo. intros H.
  destruct (lit "CPH" s) as [s1|] eqn:L1; [|discriminate].
  destruct (many1 is_digit s1) as [[d s2]|] eqn:M1; [|discriminate].
  destruct (lit "_" s2) as [s3|] eqn:L2; [|discriminate].
  destruct (many1 is_digit s3) as [[v1 s4]|] eqn:M2; [|discriminate].
  destruct (lit "." s4) as [s5|] eqn:L3; [|discriminate].
  destruct (many1 is_digit s5) as [[v2 s6]|] eqn:M3; [|discriminate].
  destruct (lit "." s6) as [s7|] eqn:L4; [|discriminate].
  destruct (many1 is_digit s7) as [[v3 s8]|] eqn:M4; [|discriminate].
  destruct (lit "." s8) as [s9|] eqn:L5; [|discriminate].
  destruct (many1 is_digit s9) as [[v4 s10]|] eqn:M5; [|discriminate].
  destruct (lit "(" s10) as [s11|] eqn:L6; [|discriminate].
  destruct (many1 is_region_char s11) as [[r s12]|] eqn:M6; [|discriminate].
  destruct (lit ")" s12) as [s13|] eqn:L7; [|discriminate].
  destruct s13; [|discriminate].
  inversion H; subst pv; clear H; cbn [modelCode version regionCode fullVersion].
  apply lit_sound in L1, L2, L3, L4, L5, L6, L7.
  apply many1_sound in M1 as (E1 & D1 & _), M2 as (E2 & D2 & _),
    M3 as (E3 & D3 & _), M4 as (E4 & D4 & _), M5 as (E5 & D5 & _),
    M6 as (E6 & D6 & _).
  split; [|reflexivity].
  repeat split.
  - exists d; auto.
  - exists v1, v2, v3, v4; auto.
  - exact D6.
  - subst. repeat first [rewrite append_assoc | progress cbn [append]].
    reflexivity.
Qed.

Lemma parseVersion_complete s m v r :
  firmware_form s m v r ->
  parseVersion s =
    Some {| modelCode := m; version := v; regionCode := r; fullVersion := s |}.
Proof.
  intros ((d & -> & Hd) & (v1 & v2 & v3 & v4 & -> & H1 & H2 & H3 & H4) & Hr & E).
  unfold is_region in Hr.
  assert (E' : s = "CPH" ++ d ++ "_" ++ v1 ++ "." ++ v2 ++ "." ++ v3 ++ "."
                   ++ v4 ++ "(" ++ r ++ ")").
  { rewrite E. repeat first [rewrite append_assoc | progress cbn [append]].
    reflexivity. }
  unfold parseVersion. rewrite E' at 1.
  rewrite lit_complete; cbn [bindo].
  rewrite many1_complete by first [assumption | reflexivity]; cbn [bindo].
  rewrite (lit_complete "_"); cbn [bindo].
  rewrite many1_complete by first [assumption | reflexivity]; cbn [bindo].
  rewrite (lit_complete "."); cbn [bindo].
  rewrite many1_complete by first [assumption | reflexivity]; cbn [bindo].
  rewrite (lit_complete "."); cbn [bindo].
  rewrite many1_complete by first [assumption | reflexivity]; cbn [bindo].
  rewrite (lit_complete "."); cbn [bindo].
  rewrite many1_complete by first [assumption | reflexivity]; cbn [bindo].
  rewrite (lit_complete "("); cbn [bindo].
  rewrite many1_complete by first [assumption | reflexivity]; cbn [bindo].
  reflexivity.
Qed.

(** C2. Every string of the form [<model>_<d>.<d>.<d>.<d>(<REGION>)] (model
    code CPH and a number, four dot-separated numeric segments, a region of
    upper-case letters and digits in parentheses) is parsed into the
    structure holding the three captured groups and, as [fullVersion], the
    input itself; every string that is not of this form is parsed to
    [None] (null). *)
Theorem parseVersion_spec (s : string) :
  (forall m v r, firmware_form s m v r ->
     parseVersion s =
       Some {| modelCode := m; version := v; regionCode := r;
               fullVersion := s |}) /\
  ((forall m v r, ~ firmware_form s m v r) -> parseVersion s = None).
Proof.
  split.
  - intros m v r; apply parseVersion_complete.
  - intros Hno. destruct (parseVersion s) as [pv|] eqn:E; [|reflexivity].
    destruct (parseVersion_sound _ E) as [Hf _]. now apply Hno in Hf.
Qed.

Example firmware_form_example :
  firmware_form "CPH2551_15.0.0.822(EX01)" "CPH2551" "15.0.0.822" "EX01".
Proof.
  repeat split.
  - exists "2551"; split; reflexivity.
  - exists "15", "0", "0", "822"; repeat split; reflexivity.
Defined.

Lemma parseVersion_spec_witness :
  parseVersion "CPH2551_15.0.0.822(EX01)" =
    Some {| modelCode := "CPH2551"; version := "15.0.0.822";
            regionCode := "EX01";
            fullVersion := "CPH2551_15.0.0.822(EX01)" |} /\
  parseVersion "cph2551_15.0.0.822(ex01)" = None.
Proof.
  split.
  - apply (proj1 (parseVersion_spec "CPH2551_15.0.0.822(EX01)")).
    exact firmware_form_example.
  - apply (proj2 (parseVersion_spec "cph2551_15.0.0.822(ex01)")).
    intros m v r ((d & -> & _) & _ & _ & E). discriminate E.
Defined.

(** Deviations from the form: no parentheses, a segment that is not a
    number, a lower-case region, text after the closing parenthesis. *)
Example parseVersion_rejects :
  parseVersion "CPH2551_15.0.0.822" = None /\
  parseVersion "CPH2551_15.0.x.822(EX01)" = None /\
  parseVersion "CPH2551_15.0.0.822(ex01)" = None /\
  parseVersion "CPH2551_15.0.0(EX01)" = None /\
  parseVersion "CPH2551_15.0.0.822(EX01) " = None.
Proof. repeat split. Qed.

Example other_model_is_parsed_but_not_eligible :
  option_map modelCode (parseVersion "CPH9999_1.0.0.0(WW01)") = Some "CPH9999" /\
  isOnePlusOpen "CPH9999" = false /\ isOnePlusOpen "CPH2551" = true.
Proof. repeat split. Qed.

(** *** Sizes for display *)

(** [formatFileSize] picks the unit by the size and shows kilobytes and
    megabytes to the nearest tenth: below 1024 the byte count itself; from
    1024 up to (not including) 1024 * 1024 the number of tenths of a
    kilobyte nearest to the size, which can be as large as 1024.0; from
    there on the nearest number of tenths of a megabyte.  (Sizes are
    integers that a JavaScript number holds exactly, from -(2^53 - 1) to
    2^53 - 1.) *)
Theorem formatFileSize_nearest_tenth (bytes : Z) :
  -9007199254740991 <= bytes <= 9007199254740991 ->
  (bytes < 1024 -> formatFileSize bytes = show_Z bytes ++ " B") /\
  (1024 <= bytes < 1024 * 1024 ->
   exists n,
     formatFileSize bytes =
       (show_Z (n / 10) ++ "." ++ show_Z (n mod 10)) ++ " KB" /\
     10 <= n <= 10240 /\
     2 * Z.abs (10 * bytes - 1024 * n) <= 1024 /\
     (2 * (10 * bytes - 1024 * n) = 1024 -> False)) /\
  (1024 * 1024 <= bytes ->
   exists n,
     formatFileSize bytes =
       (show_Z (n / 10) ++ "." ++ show_Z (n mod 10)) ++ " MB" /\
     10 <= n /\
     2 * Z.abs (10 * bytes - 1048576 * n) <= 1048576 /\
     (2 * (10 * bytes - 1048576 * n) = 1048576 -> False)).
Proof.
  intros _.
  unfold formatFileSize, toFixed1, tenths.
  change (1024 * 1024)%Z with 1048576%Z.
  change (1024 / 2)%Z with 512%Z. change (1048576 / 2)%Z with 524288%Z.
  split; [|split].
  - intros H. destruct (Z.ltb_spec bytes 1024); [reflexivity | lia].
  - intros [H1 H2].
    destruct (Z.ltb_spec bytes 1024); [lia|].
    destruct (Z.ltb_spec bytes 1048576); [|lia].
    exists ((10 * bytes + 512) / 1024)%Z. split; [reflexivity|].
    pose proof (Z.div_mod (10 * bytes + 512) 1024 ltac:(lia)) as E.
    pose proof (Z.mod_pos_bound (10 * bytes + 512) 1024 ltac:(lia)) as B.
    lia.
  - intros H1.
    destruct (Z.ltb_spec bytes 1024); [lia|].
    destruct (Z.ltb_spec bytes 1048576); [lia|].
    exists ((10 * bytes + 524288) / 1048576)%Z. split; [reflexivity|].
    pose proof (Z.div_mod (10 * bytes + 524288) 1048576 ltac:(lia)) as E.
    pose proof (Z.mod_pos_bound (10 * bytes + 524288) 1048576 ltac:(lia)) as B.
    lia.
Qed.

Lemma formatFileSize_nearest_tenth_witness :
  exists n,
    formatFileSize 50000000 =
      (show_Z (n / 10) ++ "." ++ show_Z (n mod 10)) ++ " MB" /\
    10 <= n /\
    2 * Z.abs (10 * 50000000 - 1048576 * n) <= 1048576 /\
    (2 * (10 * 50000000 - 1048576 * n) = 1048576 -> False).
Proof.
  destruct (@formatFileSize_nearest_tenth 50000000) as (_ & _ & H).
  - lia.
  - apply H. lia.
Defined.

Example formatFileSize_examples :
  formatFileSize 0 = "0 B" /\ formatFileSize 1023 = "1023 B" /\
  formatFileSize 1024 = "1.0 KB" /\ formatFileSize 1280 = "1.3 KB" /\
  formatFileSize 1048575 = "1024.0 KB" /\ formatFileSize 1048576 = "1.0 MB" /\
  formatFileSize 50000000 = "47.7 MB".
Proof. repeat split. Qed.

(** *** Comparing versions up to surrounding white space *)

Lemma ws1_bound a : ws1 a = true -> (N_of_ascii a <= 32)%N.
Proof.
  unfold ws1. cbv zeta.
  rewrite orb_true_iff, andb_true_iff, !N.leb_le, N.eqb_eq. lia.
Qed.

Lemma ws2_after_ws1 a b : ws1 b = true -> ws2 a b = false.
Proof.
  intros H. apply ws1_bound in H. unfold ws2.
  destruct (N.eqb_spec (N_of_ascii b) 160); [lia|]. apply andb_false_r.
Qed.

Lemma ws3_mid_ws1 a b c : ws1 b = true -> ws3 a b c = false.
Proof.
  intros H. apply ws1_bound in H. unfold ws3. cbv zeta.
  destruct (N.eqb_spec (N_of_ascii b) 154); [lia|].
  destruct (N.eqb_spec (N_of_ascii b) 128); [lia|].
  destruct (N.eqb_spec (N_of_ascii b) 129); [lia|].
  destruct (N.eqb_spec (N_of_ascii b) 187); [lia|].
  now rewrite !andb_false_r.
Qed.

Lemma ws3_last_ws1 a b c : ws1 c = true -> ws3 a b c = false.
Proof.
  intros H. apply ws1_bound in H. unfold ws3. cbv zeta.
  destruct (N.eqb_spec (N_of_ascii c) 128); [lia|].
  destruct (N.eqb_spec (N_of_ascii c) 168); [lia|].
  destruct (N.eqb_spec (N_of_ascii c) 169); [lia|].
  destruct (N.eqb_spec (N_of_ascii c) 175); [lia|].
  destruct (N.eqb_spec (N_of_ascii c) 159); [lia|].
  destruct (N.eqb_spec (N_of_ascii c) 191); [lia|].
  destruct (N.leb_spec 128 (N_of_ascii c)); [lia|].
  cbn [andb orb]. now rewrite !andb_false_r.
Qed.

Lemma strip_ws_head backwards p l :
  forallb ws1 p = true -> strip backwards (p ++ l)%list = strip backwards l.
Proof.
  induction p as [|a p IH]; cbn [forallb app]; intros H; [reflexivity|].
  apply andb_true_iff in H as [Ha Hp]. cbn [strip]. rewrite Ha. auto.
Qed.

Lemma strip_false_padded q : forallb ws1 q = true ->
  forall n l, (List.length l <= n)%nat ->
    strip false (l ++ q)%list =
    match strip false l with
    | [] => []
    | x :: r => ((x :: r) ++ q)%list
    end.
Proof.
  intros Hq.
  assert (Hq0 : strip false q = []).
  { rewrite <- (app_nil_r q). now rewrite strip_ws_head. }
  induction n as [|n IH]; intros l Hl.
  - destruct l; [|cbn in Hl; lia]. cbn [app]. now rewrite Hq0.
  - destruct l as [|a l1]; [cbn [app]; now rewrite Hq0|].
    cbn [app strip]. destruct (ws1 a) eqn:Ha.
    { apply IH. cbn in Hl. lia. }
    destruct l1 as [|b l2]; cbn [app].
    { destruct q as [|b q']; [reflexivity|].
      cbn [forallb] in Hq. apply andb_true_iff in Hq as [Hb Hq'].
      rewrite (ws2_after_ws1 a b Hb).
      destruct q' as [|c q'']; [reflexivity|].
      now rewrite (ws3_mid_ws1 a b c Hb). }
    destruct (ws2 a b) eqn:Hab.
    { apply IH. cbn in Hl. lia. }
    destruct l2 as [|c l3]; cbn [app].
    { destruct q as [|c q']; [reflexivity|].
      cbn [forallb] in Hq. apply andb_true_iff in Hq as [Hc Hq'].
      now rewrite (ws3_last_ws1 a b c Hc). }
    destruct (ws3 a b c) eqn:Habc; [|reflexivity].
    apply IH. cbn in Hl. lia.
Qed.

Lemma list_ascii_of_string_app a b :
  list_ascii_of_string (a ++ b) =
  (list_ascii_of_string a ++ list_ascii_of_string b)%list.
Proof. induction a as [|c a IH]; cbn; [reflexivity | now rewrite IH]. Qed.

Lemma trim_padded p s q :
  forallb ws1 (list_ascii_of_string p) = true ->
  forallb ws1 (list_ascii_of_string q) = true ->
  trim (p ++ s ++ q) = trim s.
Proof.
  intros Hp Hq. unfold trim.
  rewrite !list_ascii_of_string_app, (strip_ws_head false _ _ Hp).
  rewrite (strip_false_padded _ Hq _ (le_n _)).
  destruct (strip false (list_ascii_of_string s)) as [|x r]; [reflexivity|].
  rewrite rev_app_distr, strip_ws_head; [reflexivity|].
  rewrite forallb_forall in *. intros c Hc. apply Hq. now apply in_rev.
Qed.

(** [versionsMatch] compares two strings up to the white space around
    them: it is an equivalence, and padding either string with spaces,
    tabs or line breaks on either side does not change the answer.  So it
    accepts pairs that the exact tag comparison of the catalogue lookup
    rejects. *)
Theorem versionsMatch_ignores_padding (p s q t : string) :
  forallb ws1 (list_ascii_of_string p) = true ->
  forallb ws1 (list_ascii_of_string q) = true ->
  versionsMatch (p ++ s ++ q) t = versionsMatch s t /\
  versionsMatch t (p ++ s ++ q) = versionsMatch t s /\
  versionsMatch s s = true /\
  versionsMatch s t = versionsMatch t s /\
  (forall u, versionsMatch s t = true -> versionsMatch t u = true ->
             versionsMatch s u = true).
Proof.
  intros Hp Hq. unfold versionsMatch. rewrite (trim_padded p s q Hp Hq).
  repeat split.
  - apply String.eqb_refl.
  - apply String.eqb_sym.
  - intros u H1 H2. apply String.eqb_eq in H1, H2. apply String.eqb_eq.
    congruence.
Qed.

Example versionsMatch_is_looser_than_the_tag_comparison :
  versionsMatch " CPH2551_15.0.0.822(EX01) " "CPH2551_15.0.0.822(EX01)" = true /\
  String.eqb " CPH2551_15.0.0.822(EX01) " "CPH2551_15.0.0.822(EX01)" = false /\
  versionsMatch "CPH2551_15.0.0.822(EX01)" "CPH2551_15.0.0.822(ex01)" = false.
Proof. repeat split. Qed.

End VersionFacts.

(** ** The release catalogue *)
Section GitHubFacts.

Import GitHub.
Local Open Scope string_scope.

Lemma find_by_tag_first q releases :
  match find_by_tag q releases with
  | Some r =>
      tag_name r = q /\
      exists before after,
        releases = (before ++ r :: after)%list /\
        Forall (fun x => tag_name x <> q) before
  | None => Forall (fun x => tag_name x <> q) releases
  end.
Proof.
  unfold find_by_tag.
  induction releases as [|x rs IH]; simpl; [constructor|].
  destruct (String.eqb_spec (tag_name x) q) as [E|N].
  - split; [exact E|]. exists [], rs. split; [reflexivity | constructor].
  - destruct (find (fun r => (tag_name r =? q)%string) rs) as [r|].
    + destruct IH as (E & before & after & -> & Hb).
      split; [exact E|]. exists (x :: before), after.
      split; [reflexivity | constructor; assumption].
    + constructor; assumption.
Qed.

(** What a call of [fetchReleases] can do, by the cache it finds. *)
Lemma fetchReleases_cached g w releases :
  releasesCache g = Some releases ->
  fetchReleases (g, w) = (Resolved releases, (g, w)).
Proof.
  intros H. unfold fetchReleases, bind, get_cache, ret. cbn [fst snd].
  now rewrite H.
Qed.

Lemma fetchReleases_uncached g w :
  releasesCache g = None ->
  let w' := snd (fetch releases_url w) in
  fetchReleases (g, w) =
    match oracle w (List.length (requests w)) releases_url with
    | Rejected t => (Rejected t, (g, w'))
    | Resolved response =>
        if ok response then
          match json response with
          | Resolved releases =>
              (Resolved releases, ({| releasesCache := Some releases |}, w'))
          | Rejected t => (Rejected t, (g, w'))
          end
        else
          (Rejected (ErrorObj ("Failed to fetch releases: " ++
                               show_N (status response) ++ " " ++
                               statusText response)), (g, w'))
    end.
Proof.
  intros H. unfold fetchReleases, bind, get_cache, lift_net, fetch, throw,
    await, set_cache, ret. cbn [fst snd]. rewrite H. cbn [fst snd].
  destruct (oracle w (List.length (requests w)) releases_url) as [resp|t];
    [|reflexivity].
  destruct (ok resp); cbn [negb fst snd]; [|reflexivity].
  destruct (json resp); reflexivity.
Qed.


(** C10. A failed [fetchReleases] leaves the cache unset: the field is
    assigned only after the response was received, was [ok] and its JSON
    was read.  The next call therefore goes to the network again. *)
Theorem fetchReleases_failure_keeps_cache_unset
    (g g' : GitHubService) (w w' : World) (t : Thrown) :
  releasesCache g = None ->
  fetchReleases (g, w) = (Rejected t, (g', w')) ->
  releasesCache g' = None /\
  requests w' = (requests w ++ [releases_url])%list /\
  forall w2 : World,
    requests (snd (snd (fetchReleases (g', w2)))) =
    (requests w2 ++ [releases_url])%list.
Proof.
  intros Hc H. rewrite (fetchReleases_uncached g w Hc) in H. cbn zeta in H.
  assert (Hg : g' = g /\ w' = snd (fetch releases_url w)).
  { destruct (oracle w (List.length (requests w)) releases_url) as [resp|t0].
    - destruct (ok resp).
      + destruct (json resp); inversion H; auto.
      + inversion H; auto.
    - inversion H; auto. }
  destruct Hg as [-> ->]. repeat split; auto.
  intros w2. rewrite (fetchReleases_uncached g w2 Hc). cbn zeta.
  destruct (oracle w2 (List.length (requests w2)) releases_url) as [resp|t0].
  - destruct (ok resp); [destruct (json resp)|]; reflexivity.
  - reflexivity.
Qed.

Lemma findMatchingRelease_cached q g w releases :
  releasesCache g = Some releases ->
  findMatchingRelease q (g, w) = (Resolved (find_by_tag q releases), (g, w)).
Proof.
  intros H. unfold findMatchingRelease, bind.
  now rewrite (fetchReleases_cached g w H).
Qed.

Lemma fetchReleases_resolved g w releases g' w' :
  fetchReleases (g, w) = (Resolved releases, (g', w')) ->
  releasesCache g' = Some releases.
Proof.
  destruct (releasesCache g) as [cached|] eqn:Hc.
  - rewrite (fetchReleases_cached g w Hc). intros H; inversion H; subst.
    assumption.
  - rewrite (fetchReleases_uncached g w Hc). cbn zeta.
    destruct (oracle w (List.length (requests w)) releases_url) as [resp|t];
      [|discriminate].
    destruct (ok resp); [|discriminate].
    destruct (json resp); [|discriminate].
    intros H; inversion H; subst. reflexivity.
Qed.

Lemma getPatchedImageAsset_found release asset :
  getPatchedImageAsset release = Some asset ->
  In asset (assets release) /\ name asset = "magisk_patched_init_boot.img".
Proof.
  unfold getPatchedImageAsset. intros H. apply find_some in H as [Hi Hn].
  split; [exact Hi | now apply String.eqb_eq].
Qed.

Lemma findMatchingRelease_tag q s s' release :
  findMatchingRelease q s = (Resolved (Some release), s') ->
  tag_name release = q.
Proof.
  unfold findMatchingRelease, bind, ret.
  destruct (fetchReleases s) as [[releases|t] s1]; intros H; [|discriminate].
  inversion H as [[Hf Hs]].
  pose proof (find_by_tag_first q releases) as F. rewrite Hf in F. apply F.
Qed.

End GitHubFacts.

(** ** The fastboot session *)
Section FastbootFacts.

Import Fastboot.

Lemma isBootloaderUnlocked_iff (device : FastbootDevice) :
  isBootloaderUnlocked device = true <->
  device "unlocked"%string = Resolved (Some "yes"%string).
Proof.
  unfold isBootloaderUnlocked, getVariable.
  destruct (device "unlocked"%string) as [[v|]|t].
  - rewrite String.eqb_eq. split; congruence.
  - split; discriminate.
  - split; discriminate.
Qed.

End FastbootFacts.

(** ** The ADB session *)
Section AdbFacts.

Import Adb.
Local Open Scope string_scope.

Variable usb : Usb.

Lemma no_session_no_call (service : AdbService) (issued : list Command)
    (propName : string) :
  adb service = None ->
  getProperty usb propName (service, issued) =
    (Rejected (ErrorObj "Not connected to device"), (service, issued)) /\
  getDeviceInfo usb (service, issued) =
    (Rejected (ErrorObj "Not connected to device"), (service, issued)) /\
  rebootToBootloader usb (service, issued) =
    (Rejected (ErrorObj "Not connected to device"), (service, issued)).
Proof.
  intros H.
  unfold getProperty, getDeviceInfo, rebootToBootloader, bind, get_adb, throw.
  cbn [fst snd]. rewrite H. repeat split.
Qed.

Lemma connect_rejected_keeps_service (service : AdbService)
    (issued : list Command) (t : Thrown) :
  fst (connect usb (service, issued)) = Rejected t ->
  fst (snd (connect usb (service, issued))) = service.
Proof.
  unfold connect, call, issue, bind, await, throw, set_adb.
  destruct (browser usb); cbn [negb fst snd]; [|reflexivity].
  destruct (requestDevice usb) as [[serial|]|t1]; cbn [fst snd];
    try reflexivity.
  destruct (deviceConnect usb) as [[]|t2]; cbn [fst snd]; try reflexivity.
  destruct (authenticate usb) as [[]|t3]; cbn [fst snd]; try reflexivity.
  intros H. discriminate H.
Qed.

Lemma connect_dismissed (service : AdbService) (issued : list Command) :
  browser usb = true -> requestDevice usb = Resolved None ->
  connect usb (service, issued) =
    (Rejected (ErrorObj "No device selected"),
     (service, (issued ++ [RequestDevice])%list)).
Proof.
  intros Hb Hp.
  unfold connect, call, issue, bind, await, throw, set_adb.
  rewrite Hb. cbn [negb fst snd]. rewrite Hp. reflexivity.
Qed.

(** [connect] establishes a session exactly when the browser has a
    device manager, the user picks a device, and the connection and the
    authentication both succeed; the session is then that device's.  A
    failing [connect] leaves the service as it was.  When the user
    dismisses the picker, the only call made is the device request and
    the rejection is "No device selected". *)
Theorem connect_needs_every_step (service : AdbService) (issued : list Command) :
  (fst (connect usb (service, issued)) = Resolved tt <->
   browser usb = true /\
   exists serial,
     requestDevice usb = Resolved (Some serial) /\
     deviceConnect usb = Resolved tt /\ authenticate usb = Resolved tt) /\
  (fst (connect usb (service, issued)) = Resolved tt ->
   exists serial,
     requestDevice usb = Resolved (Some serial) /\
     adb (fst (snd (connect usb (service, issued)))) = Some serial /\
     snd (snd (connect usb (service, issued))) =
       (issued ++ [RequestDevice; DeviceConnect; Authenticate serial])%list) /\
  (forall t, fst (connect usb (service, issued)) = Rejected t ->
     fst (snd (connect usb (service, issued))) = service) /\
  (browser usb = true -> requestDevice usb = Resolved None ->
   connect usb (service, issued) =
     (Rejected (ErrorObj "No device selected"),
      (service, (issued ++ [RequestDevice])%list))).
Proof.
  unfold connect, call, issue, bind, await, throw, set_adb.
  destruct (browser usb); cbn [negb fst snd].
  - destruct (requestDevice usb) as [[serial|]|t]; cbn [fst snd].
    + destruct (deviceConnect usb) as [[]|t]; cbn [fst snd].
      * destruct (authenticate usb) as [[]|t]; cbn [fst snd].
        -- split; [|split; [|split]].
           ++ split; [intros _; split; [reflexivity|]; eauto | reflexivity].
           ++ intros _. exists serial. repeat split.
              now rewrite <- !app_assoc.
           ++ intros t H. discriminate H.
           ++ intros _ H. discriminate H.
        -- split; [|split; [|split]].
           ++ split; [intros H; discriminate H|].
              intros (_ & s0 & _ & _ & H). discriminate H.
           ++ intros H. discriminate H.
           ++ reflexivity.
           ++ intros _ H. discriminate H.
      * split; [|split; [|split]].
        -- split; [intros H; discriminate H|].
           intros (_ & s0 & _ & H & _). discriminate H.
        -- intros H. discriminate H.
        -- reflexivity.
        -- intros _ H. discriminate H.
    + split; [|split; [|split]].
      * split; [intros H; discriminate H|].
        intros (_ & s0 & H & _). discriminate H.
      * intros H. discriminate H.
      * reflexivity.
      * reflexivity.
    + split; [|split; [|split]].
      * split; [intros H; discriminate H|].
        intros (_ & s0 & H & _). discriminate H.
      * intros H. discriminate H.
      * reflexivity.
      * intros _ H. discriminate H.
  - split; [|split; [|split]].
    + split; [intros H; discriminate H|]. intros (H & _). discriminate H.
    + intros H. discriminate H.
    + reflexivity.
    + intros H. discriminate H.
Qed.

(** With a session, [getDeviceInfo] always issues both property reads, in
    the order model, firmware identifier, before it waits for either.  It
    resolves exactly when both reads resolve, with the two values and the
    session's serial; otherwise it rejects with the error of the read
    that failed, the first to fail when both do. *)
Theorem getDeviceInfo_reads_both (service : AdbService)
    (issued : list Command) (serial : string) :
  adb service = Some serial ->
  snd (getDeviceInfo usb (service, issued)) =
    (service,
     (issued ++ [GetProp "ro.product.model"; GetProp "ro.build.display.id"])%list) /\
  (forall info,
     fst (getDeviceInfo usb (service, issued)) = Resolved info <->
     getProp usb "ro.product.model" = Resolved (model info) /\
     getProp usb "ro.build.display.id" = Resolved (firmwareVersion info) /\
     Types.serial info = Some serial) /\
  (forall t,
     fst (getDeviceInfo usb (service, issued)) = Rejected t ->
     getProp usb "ro.product.model" = Rejected t \/
     getProp usb "ro.build.display.id" = Rejected t).
Proof.
  intros H.
  unfold getDeviceInfo, issue, bind, get_adb, await, ret, promise_all2.
  cbn [fst snd]. rewrite H. cbn [fst snd].
  destruct (getProp usb "ro.product.model") as [m|t1];
    destruct (getProp usb "ro.build.display.id") as [f|t2]; cbn [fst snd].
  - split; [now rewrite <- app_assoc|]. split.
    + intros [m' f' s']; cbn. split.
      * intros E. injection E as <- <- <-. auto.
      * intros (E1 & E2 & ->). injection E1 as <-. injection E2 as <-.
        reflexivity.
    + intros t E. discriminate E.
  - split; [now rewrite <- app_assoc|]. split.
    + intros info. split; [intros E; discriminate E|].
      intros (_ & E & _). discriminate E.
    + intros t E. injection E as <-. now right.
  - split; [now rewrite <- app_assoc|]. split.
    + intros info. split; [intros E; discriminate E|].
      intros (E & _). discriminate E.
    + intros t E. injection E as <-. now left.
  - split; [now rewrite <- app_assoc|]. split.
    + intros info. split; [intros E; discriminate E|].
      intros (E & _). discriminate E.
    + intros t E. injection E as <-.
      destruct (modelFirst usb); [now left | now right].
Qed.

Lemma disconnect_resolved (service : AdbService) (issued : list Command)
    (serial : string) :
  adb service = Some serial -> close usb = Resolved tt ->
  disconnect usb (service, issued) =
    (Resolved tt, (new_AdbService, (issued ++ [Close])%list)).
Proof.
  intros H Hc.
  unfold disconnect, call, issue, bind, get_adb, await, set_adb, ret.
  cbn [fst snd]. rewrite H. cbn [fst snd]. rewrite Hc. reflexivity.
Qed.

(** [disconnect] closes the session once: when the close succeeds the
    service is disconnected and a second [disconnect] does nothing; when
    the close fails the rejection is passed on and the session is kept. *)
Theorem disconnect_closes_once (service : AdbService) (issued : list Command)
    (serial : string) :
  adb service = Some serial ->
  (close usb = Resolved tt ->
   disconnect usb (service, issued) =
     (Resolved tt, (new_AdbService, (issued ++ [Close])%list)) /\
   isConnected (fst (snd (disconnect usb (service, issued)))) = false /\
   disconnect usb (snd (disconnect usb (service, issued))) =
     (Resolved tt, snd (disconnect usb (service, issued)))) /\
  (forall t, close usb = Rejected t ->
   disconnect usb (service, issued) =
     (Rejected t, (service, (issued ++ [Close])%list))).
Proof.
  intros H.
  unfold disconnect, call, issue, bind, get_adb, await, set_adb, ret.
  cbn [fst snd]. rewrite H. cbn [fst snd].
  split.
  - intros ->. cbn [fst snd adb]. repeat split.
  - intros t ->. reflexivity.
Qed.

(** A session that was never established, whose [connect] failed, or
    that has been closed cannot be used: in each of these situations the
    three device methods reject with "Not connected to device" without
    issuing a call. *)
Theorem closed_session_is_unusable (st : St) (propName : string) :
  (st = (new_AdbService, []) \/
   (exists issued t,
      fst (connect usb (new_AdbService, issued)) = Rejected t /\
      st = snd (connect usb (new_AdbService, issued))) \/
   (exists service issued,
      close usb = Resolved tt /\
      st = snd (disconnect usb (service, issued)))) ->
  getProperty usb propName st =
    (Rejected (ErrorObj "Not connected to device"), st) /\
  getDeviceInfo usb st =
    (Rejected (ErrorObj "Not connected to device"), st) /\
  rebootToBootloader usb st =
    (Rejected (ErrorObj "Not connected to device"), st).
Proof.
  intros H.
  assert (Hn : adb (fst st) = None).
  { destruct H as [-> | [(issued & t & Hc & ->) | (service & issued & Hc & ->)]].
    - reflexivity.
    - now rewrite (@connect_rejected_keeps_service new_AdbService issued t Hc).
    - destruct (adb service) as [serial|] eqn:Ha.
      + rewrite (@disconnect_resolved service issued serial Ha Hc).
        reflexivity.
      + unfold disconnect, bind, get_adb, ret. cbn [fst snd].
        rewrite Ha. exact Ha. }
  destruct st as [service issued]. now apply no_session_no_call.
Qed.

End AdbFacts.

(** ** The asset fetcher *)
Section DownloadFacts.

Import Download.
Local Open Scope string_scope.

Lemma running_totals_bounded pending : forall loaded,
  Forall (fun x => loaded <= x) (running_totals loaded pending).
Proof.
  induction pending as [|value rest IH]; intros loaded; simpl; constructor.
  - lia.
  - eapply Forall_impl; [|apply IH]. simpl. intros x Hx. lia.
Qed.

Lemma running_totals_sorted pending : forall loaded,
  StronglySorted Z.le (running_totals loaded pending).
Proof.
  induction pending as [|value rest IH]; intros loaded; simpl; constructor.
  - apply IH.
  - apply running_totals_bounded.
Qed.

Lemma blob_size_parts parts :
  blob_size (blob_of_parts parts) = total_length parts.
Proof.
  unfold blob_size, blob_of_parts.
  induction parts as [|value rest IH]; simpl; [reflexivity|].
  rewrite length_app, Nat2Z.inj_add, IH. reflexivity.
Qed.

Lemma map_loaded_progress_at total l :
  map loaded (map (progress_at total) l) = l.
Proof. induction l as [|x l IH]; simpl; [reflexivity | now rewrite IH]. Qed.

(** The read loop, in closed form. *)
Lemma read_loop_spec onProgress total failure pending :
  forall chunks loaded w,
    read_loop onProgress total pending failure chunks loaded w =
    (match failure with
     | None => Resolved (blob_of_parts (chunks ++ pending)%list)
     | Some t => Rejected t
     end,
     {| oracle := oracle w;
        requests := requests w;
        progress_calls :=
          (progress_calls w ++
           (if onProgress
            then map (progress_at total) (running_totals loaded pending)
            else []))%list |}).
Proof.
  induction pending as [|value rest IH]; intros chunks loaded w.
  - cbn [read_loop running_totals map]. destruct w as [o rq pc].
    cbn [Net.oracle Net.requests Net.progress_calls].
    replace (if onProgress then [] else []) with (@nil DownloadProgress)
      by (destruct onProgress; reflexivity).
    rewrite !app_nil_r. destruct failure; reflexivity.
  - cbn [read_loop]. unfold bind at 1. unfold call_progress at 1.
    rewrite IH. rewrite <- app_assoc. cbn [app running_totals map].
    destruct onProgress; cbn [Net.oracle Net.requests Net.progress_calls].
    + rewrite <- app_assoc. reflexivity.
    + reflexivity.
Qed.

(** C9. For every sequence of chunks the reader delivers, the assembled
    buffer is the concatenation of the chunks in arrival order, its length
    is the sum of the chunk lengths, and the [loaded] values handed to the
    successive progress callbacks are the running byte counts, which never
    decrease. *)
Theorem downloadWithProgress_assembles (response : Response) (b : Body)
    (onProgress : bool) (w : World) :
  body response = Some b ->
  exists reported : list DownloadProgress,
    progress_calls (snd (downloadWithProgress response onProgress w)) =
      (progress_calls w ++ reported)%list /\
    (onProgress = true -> map loaded reported = running_totals 0 (chunks b)) /\
    StronglySorted Z.le (map loaded reported) /\
    (failure b = None ->
       fst (downloadWithProgress response onProgress w) =
         Resolved (List.concat (chunks b)) /\
       blob_size (List.concat (chunks b)) = total_length (chunks b)).
Proof.
  intros Hb. unfold downloadWithProgress. rewrite Hb, read_loop_spec.
  cbn [fst snd Net.progress_calls app].
  eexists; split; [reflexivity|]. repeat split.
  - intros ->. apply map_loaded_progress_at.
  - destruct onProgress; [|constructor].
    rewrite map_loaded_progress_at. apply running_totals_sorted.
  - rewrite H. reflexivity.
  - apply blob_size_parts.
Qed.

Lemma includes_suffix a m : includes (a ++ m) m = true.
Proof.
  assert (R : forall x, starts_with x x = true).
  { induction x as [|c x IH]; simpl; [reflexivity|].
    now rewrite Ascii.eqb_refl, IH. }
  induction a as [|c a IH]; cbn [append].
  - destruct m; cbn [includes]; now rewrite R.
  - cbn [includes]. rewrite IH. apply orb_true_r.
Qed.

(** One pass through the body of the [try] block. *)
Lemma attempt_spec (makeProxyUrl : string -> string) url onProgress w :
  let o := oracle w (List.length (requests w)) (makeProxyUrl url) in
  exists w1,
    bind (fetch (makeProxyUrl url))
         (fun response =>
            if negb (ok response)
            then throw (ErrorObj (show_N (status response)))
            else downloadWithProgress response onProgress) w =
      (match candidate_failure o with
       | Some t => Rejected t
       | None => Resolved (candidate_bytes o)
       end, w1) /\
    oracle w1 = oracle w /\
    requests w1 = (requests w ++ [makeProxyUrl url])%list.
Proof.
  intros o. unfold bind, fetch. fold o.
  destruct o as [response|t]; cbn [candidate_failure candidate_bytes].
  - destruct (ok response); cbn [negb].
    + unfold downloadWithProgress.
      destruct (body response) as [b|].
      * rewrite read_loop_spec. cbn [app].
        eexists; split;
          [destruct (failure b); reflexivity | split; reflexivity].
      * unfold await.
        eexists; split;
          [destruct (blob response); reflexivity | split; reflexivity].
    + unfold throw. eexists; split; [reflexivity | split; reflexivity].
  - eexists; split; [reflexivity | split; reflexivity].
Qed.

Lemma candidate_outcome_shift w w1 (mk : string -> string) rest url i :
  oracle w1 = oracle w ->
  requests w1 = (requests w ++ [mk url])%list ->
  candidate_outcome w1 rest url i = candidate_outcome w (mk :: rest) url (S i).
Proof.
  intros Ho Hr. unfold candidate_outcome.
  rewrite Ho, Hr, length_app. cbn [List.length map nth].
  f_equal. lia.
Qed.

(** The proxy loop, for any value [lastError] has on entry. *)
Lemma try_proxies_spec proxies url onProgress :
  forall lastError w,
  exists k : nat,
    (k <= List.length proxies)%nat /\
    oracle (snd (try_proxies proxies url onProgress lastError w)) = oracle w /\
    requests (snd (try_proxies proxies url onProgress lastError w)) =
      (requests w ++ firstn k (map (fun mk => mk url) proxies))%list /\
    (forall i, (S i < k)%nat ->
       candidate_failure (candidate_outcome w proxies url i) <> None) /\
    match fst (try_proxies proxies url onProgress lastError w) with
    | Resolved b =>
        exists j, k = S j /\
          candidate_failure (candidate_outcome w proxies url j) = None /\
          b = candidate_bytes (candidate_outcome w proxies url j)
    | Rejected e =>
        k = List.length proxies /\
        (forall i, (i < k)%nat ->
           candidate_failure (candidate_outcome w proxies url i) <> None) /\
        e = ErrorObj ("Download failed: " ++
              last_message
                match k with
                | O => lastError
                | S j => candidate_failure (candidate_outcome w proxies url j)
                end)
    end.
Proof.
  induction proxies as [|mk rest IH]; intros lastError w.
  - exists 0%nat. cbn [try_proxies]. unfold throw. cbn [fst snd firstn map].
    rewrite app_nil_r. repeat split; auto; intros i Hi; lia.
  - cbn [try_proxies]. unfold try_catch.
    destruct (attempt_spec mk url onProgress w) as (w1 & E & Ho & Hr).
    cbn zeta in E. rewrite E.
    assert (O0 : candidate_outcome w (mk :: rest) url 0 =
                 oracle w (List.length (requests w)) (mk url)).
    { unfold candidate_outcome. cbn [map nth]. now rewrite Nat.add_0_r. }
    rewrite <- O0 in *.
    destruct (candidate_failure (candidate_outcome w (mk :: rest) url 0))
      as [t|] eqn:Hcf.
    + destruct (IH (Some t) w1) as (k & Hk & Ho' & Hr' & Hbefore & Hres).
      exists (S k). split; [cbn [List.length]; lia|].
      split; [congruence|].
      split.
      { rewrite Hr', Hr, <- app_assoc. reflexivity. }
      split.
      { intros [|i] Hi; [congruence|].
        rewrite <- (@candidate_outcome_shift w w1 mk rest url _ Ho Hr).
        apply Hbefore. lia. }
      destruct (fst (try_proxies rest url onProgress (Some t) w1)) as [b|e].
      * destruct Hres as (j & -> & Hj & Hb). exists (S j).
        rewrite <- (@candidate_outcome_shift w w1 mk rest url _ Ho Hr). auto.
      * destruct Hres as (-> & Hall & He). split; [reflexivity|]. split.
        { intros [|i] Hi; [congruence|].
          rewrite <- (@candidate_outcome_shift w w1 mk rest url _ Ho Hr).
          apply Hall. cbn [List.length] in Hi. lia. }
        rewrite He. destruct (List.length rest) as [|n] eqn:Hn.
        { now rewrite Hcf. }
        now rewrite <- (@candidate_outcome_shift w w1 mk rest url _ Ho Hr).
    + exists 1%nat. cbn [fst snd List.length map firstn].
      split; [lia|]. split; [exact Ho|]. split; [exact Hr|].
      split; [intros i Hi; lia|].
      exists 0%nat. auto.
Qed.

(** C3. For every URL and every ordered list of proxy candidates, the
    candidates are requested strictly in list order, each one only after
    all earlier ones failed (transport error, non-success status or a body
    that could not be read); the first one that does not fail supplies the
    result; and when every candidate fails the call rejects with a
    "Download failed" error whose message carries the message of the last
    candidate's failure. *)
Theorem downloadAsset_tries_in_order (proxies : list (string -> string))
    (url : string) (onProgress : bool) (w : World) :
  exists k : nat,
    (k <= List.length proxies)%nat /\
    requests (snd (try_proxies proxies url onProgress None w)) =
      (requests w ++ firstn k (map (fun mk => mk url) proxies))%list /\
    (forall i, (S i < k)%nat ->
       candidate_failure (candidate_outcome w proxies url i) <> None) /\
    match fst (try_proxies proxies url onProgress None w) with
    | Resolved b =>
        exists j, k = S j /\
          candidate_failure (candidate_outcome w proxies url j) = None /\
          b = candidate_bytes (candidate_outcome w proxies url j)
    | Rejected e =>
        k = List.length proxies /\
        (forall i, (i < k)%nat ->
           candidate_failure (candidate_outcome w proxies url i) <> None) /\
        exists message,
          e = ErrorObj ("Download failed: " ++ message) /\
          forall j last,
            k = S j ->
            candidate_failure (candidate_outcome w proxies url j) =
              Some (ErrorObj last) ->
            includes message last = true /\
            (last <> "" -> message = last)
    end.
Proof.
  destruct (try_proxies_spec proxies url onProgress None w)
    as (k & Hk & _ & Hr & Hbefore & Hres).
  exists k. repeat (split; [assumption|]).
  destruct (fst (try_proxies proxies url onProgress None w)) as [b|e];
    [exact Hres|].
  destruct Hres as (Hlen & Hall & He). repeat (split; [assumption|]).
  eexists; split; [exact He|].
  intros j last Hj Hlast. rewrite Hj, Hlast.
  destruct last as [|c last]; cbn [last_message].
  - split; [reflexivity | congruence].
  - split; [apply (includes_suffix "") | reflexivity].
Qed.

(** Two proxies answering 502 and 504: both are requested, in order, and
    the error carries the status of the second. *)
Example two_gateways_fail :
  try_proxies Scenario.two_proxies "u" true None
              (new_world Scenario.net_gateways) =
    (Rejected (ErrorObj "Download failed: 504"),
     {| oracle := Scenario.net_gateways;
        requests := ["https://a.example/?u"; "https://b.example/?u"];
        progress_calls := [] |}).
Proof. reflexivity. Qed.

Example proxied_url :
  map (fun mk => mk "https://example.org/a b.img") CORS_PROXIES =
    ["https://api.codetabs.com/v1/proxy?quest=https%3A%2F%2Fexample.org%2Fa%20b.img"].
Proof. reflexivity. Qed.

(** *** The proxied URL *)

Lemma encoded_char (c : ascii) :
  if unreserved c then Ascii.eqb c "%" = false
  else
    unhex (hex_digit (N_of_ascii c / 16)) = Some (N_of_ascii c / 16)%N /\
    unhex (hex_digit (N_of_ascii c mod 16)) = Some (N_of_ascii c mod 16)%N /\
    ascii_of_N (16 * (N_of_ascii c / 16) + N_of_ascii c mod 16) = c /\
    unreserved (hex_digit (N_of_ascii c / 16)) = true /\
    unreserved (hex_digit (N_of_ascii c mod 16)) = true.
Proof.
  destruct c as [[] [] [] [] [] [] [] []]; vm_compute; repeat split.
Qed.

Lemma percent_decode_encode s : percent_decode (encodeURIComponent s) = s.
Proof.
  induction s as [|c s IH]; [reflexivity|].
  cbn [encodeURIComponent]. pose proof (encoded_char c) as F.
  destruct (unreserved c).
  - cbn [percent_decode]. now rewrite F, IH.
  - destruct F as (H1 & H2 & H3 & _).
    cbn [percent_decode]. change (Ascii.eqb "%" "%") with true. cbv iota.
    now rewrite H1, H2, H3, IH.
Qed.

Lemma encode_alphabet s :
  Version.all_chars (fun c => unreserved c || Ascii.eqb c "%")
                    (encodeURIComponent s) = true.
Proof.
  induction s as [|c s IH]; [reflexivity|].
  cbn [encodeURIComponent]. pose proof (encoded_char c) as F.
  destruct (unreserved c) eqn:U.
  - cbn [Version.all_chars]. now rewrite U, IH.
  - destruct F as (_ & _ & _ & H4 & H5).
    cbn [Version.all_chars]. rewrite H4, H5, IH. reflexivity.
Qed.

Lemma append_inj_l (a x y : string) : a ++ x = a ++ y -> x = y.
Proof.
  induction a as [|c a IH]; cbn; intros H; [exact H|].
  injection H as H. auto.
Qed.

(** The proxied request carries the asset URL intact: the encoded URL
    consists of unreserved characters and percent signs only, so nothing
    in it can end or extend the query parameter; decoding it gives the
    asset URL back; and two different asset URLs are never sent to the
    same proxied address, with either proxy. *)
Theorem proxied_url_carries_the_asset_url (url : string) :
  percent_decode (encodeURIComponent url) = url /\
  Version.all_chars (fun c => unreserved c || Ascii.eqb c "%")
                    (encodeURIComponent url) = true /\
  (forall mk other, In mk CORS_PROXIES -> mk url = mk other -> url = other) /\
  (forall other,
     DownloadSingle.proxiedUrl url = DownloadSingle.proxiedUrl other ->
     url = other).
Proof.
  assert (Inj : forall pre other,
            pre ++ encodeURIComponent url = pre ++ encodeURIComponent other ->
            url = other).
  { intros pre other H. apply append_inj_l in H.
    rewrite <- (percent_decode_encode url), <- (percent_decode_encode other).
    now rewrite H. }
  split; [apply percent_decode_encode|].
  split; [apply encode_alphabet|].
  split.
  - intros mk other [<-|[]] H. exact (Inj _ _ H).
  - intros other H. exact (Inj _ _ H).
Qed.

(** *** Progress over several candidates *)

Lemma attempt_progress (makeProxyUrl : string -> string) url w :
  let o := oracle w (List.length (requests w)) (makeProxyUrl url) in
  exists w1,
    bind (fetch (makeProxyUrl url))
         (fun response =>
            if negb (ok response)
            then throw (ErrorObj (show_N (status response)))
            else downloadWithProgress response true) w =
      (match candidate_failure o with
       | Some t => Rejected t
       | None => Resolved (candidate_bytes o)
       end, w1) /\
    oracle w1 = oracle w /\
    requests w1 = (requests w ++ [makeProxyUrl url])%list /\
    progress_calls w1 = (progress_calls w ++ candidate_progress o)%list.
Proof.
  intros o. unfold bind, fetch. fold o.
  destruct o as [response|t];
    cbn [candidate_failure candidate_bytes candidate_progress].
  - destruct (ok response); cbn [negb].
    + unfold downloadWithProgress.
      destruct (body response) as [b|].
      * rewrite read_loop_spec. cbn [app].
        eexists; split;
          [destruct (failure b); reflexivity | repeat split; reflexivity].
      * unfold await.
        eexists; split;
          [destruct (blob response); reflexivity
          | repeat split; cbn; now rewrite app_nil_r].
    + unfold throw.
      eexists; split; [reflexivity | repeat split; cbn; now rewrite app_nil_r].
  - eexists; split; [reflexivity | repeat split; cbn; now rewrite app_nil_r].
Qed.

Lemma flat_map_seq_shift {A} (f : nat -> list A) k :
  flat_map f (seq 1 k) = flat_map (fun i => f (S i)) (seq 0 k).
Proof.
  rewrite <- seq_shift. induction (seq 0 k) as [|i l IH]; cbn;
    [reflexivity | now rewrite IH].
Qed.

(** Over a whole [downloadAsset] call the progress callback sees, one
    after the other, the running byte counts of every candidate that was
    tried: a candidate that fails after delivering chunks has reported
    them, and the next candidate starts counting from its own first chunk
    again. *)
Theorem progress_restarts_with_each_candidate
    (proxies : list (string -> string)) (url : string)
    (lastError : option Thrown) (w : World) :
  exists k : nat,
    (k <= List.length proxies)%nat /\
    requests (snd (try_proxies proxies url true lastError w)) =
      (requests w ++ firstn k (map (fun mk => mk url) proxies))%list /\
    progress_calls (snd (try_proxies proxies url true lastError w)) =
      (progress_calls w ++
       flat_map (fun i => candidate_progress (candidate_outcome w proxies url i))
                (seq 0 k))%list.
Proof.
  revert lastError w.
  induction proxies as [|mk rest IH]; intros lastError w.
  - exists 0%nat. cbn [try_proxies]. unfold throw. cbn.
    now rewrite !app_nil_r.
  - cbn [try_proxies]. unfold try_catch.
    destruct (attempt_progress mk url w) as (w1 & E & Ho & Hr & Hp).
    cbn zeta in E. rewrite E.
    assert (O0 : candidate_outcome w (mk :: rest) url 0 =
                 oracle w (List.length (requests w)) (mk url)).
    { unfold candidate_outcome. cbn [map nth]. now rewrite Nat.add_0_r. }
    rewrite <- O0 in *.
    destruct (candidate_failure (candidate_outcome w (mk :: rest) url 0))
      as [t|].
    + destruct (IH (Some t) w1) as (k & Hk & Hr' & Hp').
      exists (S k). split; [cbn [List.length]; lia|]. split.
      * rewrite Hr', Hr, <- app_assoc. reflexivity.
      * rewrite Hp', Hp, <- app_assoc. f_equal.
        cbn [seq flat_map]. f_equal. rewrite flat_map_seq_shift.
        apply flat_map_ext. intros i.
        now rewrite (@candidate_outcome_shift w w1 mk rest url i Ho Hr).
    + exists 1%nat. cbn [fst snd List.length map firstn seq flat_map].
      split; [lia|]. split; [exact Hr|]. now rewrite app_nil_r.
Qed.

(** *** Responses of unknown size, without a body, or cut short *)

(** A response read as a stream gets one progress callback per chunk, all
    with the same total: the declared length, or 0 with a percentage of 0
    when none is declared.  A stream that breaks rejects with the reader's
    error after the chunks that arrived were reported.  A response without
    a body is read in one piece with no callback at all. *)
Theorem stream_progress_records (response : Response) (onProgress : bool)
    (w : World) :
  (forall b, body response = Some b ->
     exists reported,
       progress_calls (snd (downloadWithProgress response onProgress w)) =
         (progress_calls w ++ reported)%list /\
       List.length reported =
         (if onProgress then List.length (chunks b) else 0%nat) /\
       (content_length response = None ->
          Forall (fun p => total p = 0 /\ percentage p = 0%Q) reported) /\
       (forall n, content_length response = Some n ->
          Forall (fun p => total p = n) reported) /\
       (forall t, failure b = Some t ->
          fst (downloadWithProgress response onProgress w) = Rejected t)) /\
  (body response = None ->
     downloadWithProgress response onProgress w = (blob response, w)).
Proof.
  split.
  - intros b Hb. unfold downloadWithProgress. rewrite Hb, read_loop_spec.
    cbn [fst snd Net.progress_calls].
    eexists. split; [reflexivity|].
    assert (Hlen : forall l0 cs, List.length (running_totals l0 cs) =
                                 List.length cs).
    { intros l0 cs; revert l0; induction cs as [|v cs IH]; intros l0; cbn;
        [reflexivity | now rewrite IH]. }
    destruct onProgress.
    + split; [now rewrite length_map, Hlen|].
      split; [|split].
      * intros ->. apply Forall_map, Forall_forall. intros x _. cbn. auto.
      * intros n ->. apply Forall_map, Forall_forall. intros x _. reflexivity.
      * intros t ->. reflexivity.
    + split; [reflexivity|]. split; [constructor|].
      split; [constructor|]. intros t ->. reflexivity.
  - intros Hb. unfold downloadWithProgress. rewrite Hb. reflexivity.
Qed.

(** *** The single-proxy version *)

Lemma length_append (a b : string) :
  String.length (a ++ b) = (String.length a + String.length b)%nat.
Proof. induction a as [|c a IH]; cbn; [reflexivity | now rewrite IH]. Qed.

Lemma wrapped_error_differs (t : Thrown) :
  ErrorObj ("Download failed: " ++ last_message (Some t)) <> t.
Proof.
  destruct t as [m|]; [|discriminate].
  intros H. injection H as H. apply (f_equal String.length) in H.
  destruct m as [|c m]; cbn in H; lia.
Qed.

Lemma status_text_differs (s st : string) : s <> s ++ " " ++ st.
Proof.
  intros H.
  apply (f_equal String.length) in H. rewrite !length_append in H.
  cbn in H. lia.
Qed.

Lemma show_N_message (n : N) :
  last_message (Some (ErrorObj (show_N n))) = show_N n.
Proof.
  destruct (show_N n) eqn:Es; [|reflexivity].
  exfalso. revert Es. unfold show_N.
  destruct (N.to_uint n); discriminate.
Qed.

(** The single-proxy downloader makes exactly one request, to the proxied
    URL, whatever the answer; and the later downloader, given that one
    proxy as its only candidate, makes the same request and the same
    progress calls and resolves exactly when the single-proxy one does,
    with the same bytes.  When they reject, they never reject with the
    same error.  For a response that is not ok the single-proxy version
    reports "Download failed: " with the status and the status text, the
    later one "Download failed: " with the status alone.  Every other
    failure (of the request itself, of reading the body, of [blob()]) the
    single-proxy version passes on unchanged, while the later one rejects
    with "Download failed: " followed by that error's message, or by
    "All proxies failed" when it has none. *)
Theorem single_proxy_download (url : string) (onProgress : bool) (w : World) :
  requests (snd (DownloadSingle.downloadAsset url onProgress w)) =
    (requests w ++ [DownloadSingle.proxiedUrl url])%list /\
  snd (DownloadSingle.downloadAsset url onProgress w) =
    snd (try_proxies [DownloadSingle.proxiedUrl] url onProgress None w) /\
  (forall b,
     fst (DownloadSingle.downloadAsset url onProgress w) = Resolved b <->
     fst (try_proxies [DownloadSingle.proxiedUrl] url onProgress None w) =
       Resolved b) /\
  (forall response,
     oracle w (List.length (requests w)) (DownloadSingle.proxiedUrl url) =
       Resolved response ->
     ok response = false ->
     fst (DownloadSingle.downloadAsset url onProgress w) =
       Rejected (ErrorObj ("Download failed: " ++ show_N (status response) ++
                           " " ++ statusText response)) /\
     fst (try_proxies [DownloadSingle.proxiedUrl] url onProgress None w) =
       Rejected (ErrorObj ("Download failed: " ++ show_N (status response)))) /\
  (forall t,
     fst (DownloadSingle.downloadAsset url onProgress w) = Rejected t ->
     (forall response,
        oracle w (List.length (requests w)) (DownloadSingle.proxiedUrl url) =
          Resolved response ->
        ok response = true) ->
     candidate_failure
       (oracle w (List.length (requests w)) (DownloadSingle.proxiedUrl url)) =
       Some t /\
     fst (try_proxies [DownloadSingle.proxiedUrl] url onProgress None w) =
       Rejected (ErrorObj ("Download failed: " ++ last_message (Some t)))) /\
  (forall t,
     fst (DownloadSingle.downloadAsset url onProgress w) = Rejected t ->
     fst (try_proxies [DownloadSingle.proxiedUrl] url onProgress None w) <>
       Rejected t).
Proof.
  unfold DownloadSingle.downloadAsset. cbn [try_proxies].
  unfold try_catch, bind, fetch, throw.
  destruct (oracle w (List.length (requests w)) (DownloadSingle.proxiedUrl url))
    as [response|t] eqn:Ho.
  - destruct (ok response) eqn:Hok; cbn [negb].
    + unfold downloadWithProgress, candidate_failure. rewrite Hok. cbn [negb].
      destruct (body response) as [b|].
      * rewrite !read_loop_spec. cbn [fst snd Net.requests].
        destruct (failure b) as [t|]; cbn [fst snd];
          (split; [reflexivity|]); (split; [reflexivity|]);
          (split; [intros b0; split; intros H; (exact H || discriminate H)|]);
          (split; [intros r Hr; injection Hr as <-; congruence|]).
        -- split.
           ++ intros t0 H _. injection H as <-. split; reflexivity.
           ++ intros t0 H. injection H as <-. intros H. injection H as H.
              exact (wrapped_error_differs H).
        -- split; intros t0 H; discriminate H.
      * unfold await.
        destruct (blob response) as [b|t]; cbn [fst snd];
          (split; [reflexivity|]); (split; [reflexivity|]);
          (split; [intros b0; split; intros H; (exact H || discriminate H)|]);
          (split; [intros r Hr; injection Hr as <-; congruence|]).
        -- split; intros t0 H; discriminate H.
        -- split.
           ++ intros t0 H _. injection H as <-. split; reflexivity.
           ++ intros t0 H. injection H as <-. intros H. injection H as H.
              exact (wrapped_error_differs H).
    + cbn [fst snd Net.requests]. rewrite show_N_message.
      split; [reflexivity|]. split; [reflexivity|].
      split; [intros b0; split; intros H; discriminate H|].
      split; [intros r Hr _; injection Hr as <-; split; reflexivity|].
      split.
      * intros t0 _ H. specialize (H response eq_refl). congruence.
      * intros t0 H. injection H as <-. intros H. injection H as H.
        exact (@status_text_differs _ _ H).
  - cbn [fst snd Net.requests].
    split; [reflexivity|]. split; [reflexivity|].
    split; [intros b0; split; intros H; discriminate H|].
    split; [intros r Hr; discriminate Hr|].
    split.
    + intros t0 H _. injection H as <-. split; reflexivity.
    + intros t0 H. injection H as <-. intros H. injection H as H.
      exact (wrapped_error_differs H).
Qed.

End DownloadFacts.

(** ** The flow controller *)
Section FlowFacts.

Import Flow GitHub.
Local Open Scope string_scope.

Variable env : Env.

(** The progress callbacks touch nothing but their own progress field. *)
Ltac fold_fields :=
  let l := fresh "l" in let IH := fresh "IH" in
  intros l; induction l as [|? l IH]; intros; cbn [fold_left];
  [reflexivity | rewrite IH; reflexivity].

Lemma fold_download_state : forall l a,
  state (fold_left onDownloadProgress l a) = state a.
Proof. fold_fields. Qed.

Lemma fold_download_deviceInfo : forall l a,
  deviceInfo (fold_left onDownloadProgress l a) = deviceInfo a.
Proof. fold_fields. Qed.

Lemma fold_download_matchedRelease : forall l a,
  matchedRelease (fold_left onDownloadProgress l a) = matchedRelease a.
Proof. fold_fields. Qed.

Lemma fold_download_imageBlob : forall l a,
  imageBlob (fold_left onDownloadProgress l a) = imageBlob a.
Proof. fold_fields. Qed.

Lemma fold_download_flashProgress : forall l a,
  flashProgress (fold_left onDownloadProgress l a) = flashProgress a.
Proof. fold_fields. Qed.

Lemma fold_download_error : forall l a,
  error (fold_left onDownloadProgress l a) = error a.
Proof. fold_fields. Qed.

Lemma fold_download_logs : forall l a,
  logs (fold_left onDownloadProgress l a) = logs a.
Proof. fold_fields. Qed.

Lemma fold_download_progress : forall l a,
  downloadProgress (fold_left onDownloadProgress l a) =
  match rev l with
  | [] => downloadProgress a
  | p :: _ => Some p
  end.
Proof.
  intros l. induction l as [|p l IH] using rev_ind; intros a.
  - reflexivity.
  - rewrite fold_left_app, rev_app_distr. reflexivity.
Qed.

Lemma fold_flash_state : forall l a,
  state (fold_left onFlashProgress l a) = state a.
Proof. fold_fields. Qed.

Lemma fold_flash_deviceInfo : forall l a,
  deviceInfo (fold_left onFlashProgress l a) = deviceInfo a.
Proof. fold_fields. Qed.

Lemma fold_flash_matchedRelease : forall l a,
  matchedRelease (fold_left onFlashProgress l a) = matchedRelease a.
Proof. fold_fields. Qed.

Lemma fold_flash_imageBlob : forall l a,
  imageBlob (fold_left onFlashProgress l a) = imageBlob a.
Proof. fold_fields. Qed.

Lemma fold_flash_downloadProgress : forall l a,
  downloadProgress (fold_left onFlashProgress l a) = downloadProgress a.
Proof. fold_fields. Qed.

Lemma fold_flash_error : forall l a,
  error (fold_left onFlashProgress l a) = error a.
Proof. fold_fields. Qed.

Lemma fold_flash_logs : forall l a,
  logs (fold_left onFlashProgress l a) = logs a.
Proof. fold_fields. Qed.

Lemma fold_flash_progress : forall l a,
  flashProgress (fold_left onFlashProgress l a) =
  match rev l with
  | [] => flashProgress a
  | f :: _ =>
      Some {| action := "flashing"; partition := "init_boot"; progress := f |}
  end.
Proof.
  intros l. induction l as [|p l IH] using rev_ind; intros a.
  - reflexivity.
  - rewrite fold_left_app, rev_app_distr. reflexivity.
Qed.

Local Opaque findMatchingRelease Download.downloadAsset Version.parseVersion
  Version.isOnePlusOpen includes Fastboot.isBootloaderUnlocked
  getPatchedImageAsset append onDownloadProgress onFlashProgress.

Ltac fields :=
  rewrite ?fold_download_state, ?fold_download_deviceInfo,
    ?fold_download_matchedRelease, ?fold_download_imageBlob,
    ?fold_download_flashProgress, ?fold_download_error,
    ?fold_flash_state, ?fold_flash_deviceInfo, ?fold_flash_matchedRelease,
    ?fold_flash_imageBlob, ?fold_flash_downloadProgress, ?fold_flash_error
    in *.

Ltac handlers :=
  unfold handle, connectAdb, checkBrowser, downloadImage, confirmFlash,
    rebootToBootloader, connectFastboot, reset,
    after_AdbConnect, after_GetDeviceInfo, after_FindMatchingRelease,
    call_findMatchingRelease, after_DownloadAsset, call_downloadAsset,
    after_AdbRebootToBootloader, after_AdbDisconnect, after_FastbootConnect,
    catch_connectFastboot, after_IsBootloaderUnlocked, flashImage,
    after_FlashInitBoot, after_FastbootReboot in *.

(** Case analysis along the branches of a handler, innermost test first. *)
Ltac split_match :=
  match goal with
  | |- context [match ?x with _ => _ end] =>
      lazymatch x with
      | context [match _ with _ => _ end] => fail
      | _ => destruct x eqn:?
      end
  end.

Ltac branches := cbn in *; repeat (split_match; cbn in *).

Lemma renders_in_progress a b : renders (in_progress a) b = false.
Proof. destruct a, b; reflexivity. Qed.

Lemma single_flight_cases c :
  single_flight c ->
  tasks c = [] \/ exists a, tasks c = [a] /\ state (app c) = in_progress a.
Proof.
  unfold single_flight. destruct (tasks c) as [|a [|b l]]; intros H.
  - now left.
  - right. now exists a.
  - contradiction.
Qed.

Lemma handle_single_flight b c :
  tasks c = [] -> single_flight (handle env b c).
Proof.
  destruct c as [a g n ts cs f]. cbn. intros ->.
  unfold single_flight.
  destruct b; unfold handle, connectAdb, checkBrowser, downloadImage; branches;
    auto.
Qed.

Lemma resume_single_flight a o c c' :
  tasks c = [] -> state (app c) = in_progress a ->
  resume env a o c = Some c' -> single_flight c'.
Proof.
  destruct c as [ap g n ts cs f]. cbn. intros -> Hst H.
  unfold single_flight.
  destruct a, o; cbn in H; try discriminate; inversion H; subst; clear H;
    unfold after_AdbConnect, after_GetDeviceInfo, after_FindMatchingRelease,
      call_findMatchingRelease, after_DownloadAsset, call_downloadAsset,
      after_AdbRebootToBootloader, after_AdbDisconnect, after_FastbootConnect,
      catch_connectFastboot, after_IsBootloaderUnlocked, flashImage,
      after_FlashInitBoot, after_FastbootReboot;
    branches; auto.
Qed.

Lemma nth_error_singleton {A} (x y : A) i :
  nth_error [x] i = Some y -> i = 0%nat /\ y = x.
Proof.
  destruct i as [|[|i]]; cbn; intros H; try discriminate.
  inversion H; auto.
Qed.

Lemma step_single_flight c e c' :
  single_flight c -> step env c e = Some c' -> single_flight c'.
Proof.
  intros Hsf Hstep.
  destruct (single_flight_cases c Hsf) as [Hts | (a & Hts & Hst)];
    destruct e as [b | i o]; unfold step in Hstep.
  - destruct (renders (state (app c)) b); [|discriminate].
    inversion Hstep; subst. now apply handle_single_flight.
  - rewrite Hts in Hstep. destruct i; discriminate.
  - rewrite Hst, renders_in_progress in Hstep. discriminate.
  - rewrite Hts in Hstep.
    destruct (nth_error [a] i) as [a'|] eqn:Hn; [|discriminate].
    apply nth_error_singleton in Hn as [-> ->].
    apply (resume_single_flight a o (drop_task 0 c)); auto.
    unfold drop_task. cbn. now rewrite Hts.
Qed.

Lemma reachable_single_flight c : reachable env c -> single_flight c.
Proof.
  induction 1 as [|c e c' _ IH Hstep].
  - exact I.
  - exact (step_single_flight c e IH Hstep).
Qed.

Lemma run_reachable es : forall c c',
  reachable env c -> run env c es = Some c' -> reachable env c'.
Proof.
  induction es as [|e es IH]; cbn; intros c c' Hc H.
  - inversion H; subst; assumption.
  - destruct (step env c e) as [c1|] eqn:Hs; [|discriminate].
    apply (IH c1); [|assumption]. eapply reach_step; eassumption.
Qed.

Lemma step_inversion c e c' :
  single_flight c -> step env c e = Some c' ->
  (exists b, e = Click b /\ tasks c = [] /\
             renders (state (app c)) b = true /\ c' = handle env b c) \/
  (exists a o, e = Settle 0 o /\ tasks c = [a] /\
               state (app c) = in_progress a /\
               resume env a o (drop_task 0 c) = Some c').
Proof.
  intros Hsf Hstep.
  destruct (single_flight_cases c Hsf) as [Hts | (a & Hts & Hst)];
    destruct e as [b | i o]; unfold step in Hstep.
  - destruct (renders (state (app c)) b) eqn:Hb; [|discriminate].
    inversion Hstep; subst. left. eauto.
  - rewrite Hts in Hstep. destruct i; discriminate.
  - rewrite Hst, renders_in_progress in Hstep. discriminate.
  - rewrite Hts in Hstep.
    destruct (nth_error [a] i) as [a'|] eqn:Hn; [|discriminate].
    apply nth_error_singleton in Hn as [-> ->]. right. eauto 10.
Qed.

Lemma handle_starts b c :
  tasks c = [] ->
  (calls (handle env b c) = calls c /\ tasks (handle env b c) = []) \/
  exists a, calls (handle env b c) = (calls c ++ [a])%list /\
            tasks (handle env b c) = [a].
Proof.
  destruct c as [ap g n ts cs f]. cbn. intros ->.
  destruct b; handlers; branches; auto; right; eexists; split; reflexivity.
Qed.

Lemma resume_starts a o c c' :
  tasks c = [] -> resume env a o c = Some c' ->
  (calls c' = calls c /\ tasks c' = []) \/
  exists a', calls c' = (calls c ++ [a'])%list /\ tasks c' = [a'].
Proof.
  destruct c as [ap g n ts cs f]. cbn. intros -> H.
  destruct a, o; cbn in H; try discriminate H; injection H as <-;
    handlers; branches; auto; right; eexists; split; reflexivity.
Qed.

(** C1. Single-flight invariant of the flow controller.  In every reachable
    configuration at most one service call is outstanding, and while a
    call is outstanding the controller is in the state that stands for
    that call in progress; no button is on screen then, so the only event
    that can occur, and hence the only one that can change the state, is
    the settlement of that very call.  A step starts at most one call, and
    when it has started one the controller is already in the state of that
    call and no other call is outstanding. *)
Theorem single_flight_invariant (c : Config) :
  reachable env c ->
  (List.length (tasks c) <= 1)%nat /\
  (forall a, In a (tasks c) -> state (app c) = in_progress a) /\
  (forall e c',
     step env c e = Some c' ->
     (calls c' = calls c /\ tasks c' = []) \/
     exists a, calls c' = (calls c ++ [a])%list /\ tasks c' = [a] /\
               state (app c') = in_progress a) /\
  (forall e c',
     tasks c <> [] -> step env c e = Some c' ->
     exists o, e = Settle 0 o /\ (List.length (tasks c') <= 1)%nat).
Proof.
  intros Hr. pose proof (reachable_single_flight Hr) as Hsf.
  assert (Hstart : forall e c',
     step env c e = Some c' ->
     (calls c' = calls c /\ tasks c' = []) \/
     exists a, calls c' = (calls c ++ [a])%list /\ tasks c' = [a] /\
               state (app c') = in_progress a).
  { intros e c' Hstep.
    pose proof (step_single_flight c e Hsf Hstep) as Hsf'.
    assert (Hs : (calls c' = calls c /\ tasks c' = []) \/
                 exists a, calls c' = (calls c ++ [a])%list /\ tasks c' = [a]).
    { destruct (step_inversion c e Hsf Hstep)
        as [(b & _ & Hts & _ & ->) | (a & o & _ & Hts & _ & Hres)].
      - now apply handle_starts.
      - apply (@resume_starts a o (drop_task 0 c) c'); [|exact Hres].
        cbn. now rewrite Hts. }
    destruct Hs as [Hs | (a & Hc & Ht)]; [now left|].
    right. exists a. repeat split; try assumption.
    unfold single_flight in Hsf'. now rewrite Ht in Hsf'. }
  destruct (single_flight_cases c Hsf) as [Hts | (a & Hts & Hst)].
  - rewrite Hts. cbn.
    split; [lia|]. split; [contradiction|]. split; [exact Hstart|]. congruence.
  - rewrite Hts. cbn. split; [lia|]. split; [|split; [exact Hstart|]].
    + intros a' [<-|[]]. exact Hst.
    + intros e c' _ Hstep.
      assert (Hsf' : single_flight c') by exact (step_single_flight c e Hsf Hstep).
      assert (Hlen : (List.length (tasks c') <= 1)%nat).
      { destruct (single_flight_cases c' Hsf') as [E | (a' & E & _)];
          rewrite E; cbn; lia. }
      destruct e as [b | i o]; unfold step in Hstep.
      * rewrite Hst, renders_in_progress in Hstep. discriminate.
      * rewrite Hts in Hstep.
        destruct (nth_error [a] i) as [a'|] eqn:Hn; [|discriminate].
        apply nth_error_singleton in Hn as [-> ->]. eauto.
Qed.

(** *** No image before the download has completed *)

Lemma handle_no_image_yet b c :
  renders (state (app c)) b = true -> no_image_yet c ->
  no_image_yet (handle env b c).
Proof.
  destruct c as [ap g n ts cs f]. unfold no_image_yet. cbn.
  intros Hb [Hn1 Hn2].
  destruct b, (state ap) eqn:Hst; try discriminate Hb; handlers; branches;
    split; intros; try discriminate; try congruence; auto.
Qed.

Lemma resume_no_image_yet a o c c' :
  state (app c) = in_progress a -> no_image_yet c ->
  resume env a o c = Some c' -> no_image_yet c'.
Proof.
  destruct c as [ap g n ts cs f]. unfold no_image_yet. cbn.
  intros Hst [Hn1 Hn2] H. rewrite Hst in *.
  destruct a, o; cbn in H; try discriminate H; injection H as <-;
    handlers; branches; fields;
    split; intros; try discriminate; try congruence; auto;
    match goal with
    | H : before_download _ = true |- _ => rewrite Hst in H; discriminate H
    end.
Qed.

Lemma reachable_no_image_yet c : reachable env c -> no_image_yet c.
Proof.
  induction 1 as [|c e c' Hr IH Hstep].
  - split; [reflexivity | discriminate].
  - destruct (step_inversion c e (reachable_single_flight Hr) Hstep)
      as [(b & _ & _ & Hb & ->) | (a & o & _ & _ & Hst & Hres)].
    + now apply handle_no_image_yet.
    + eapply resume_no_image_yet; [ | | exact Hres]; auto.
Qed.

(** *** Entering the error state *)

Lemma fold_download_progress_kept l a :
  downloadProgress a <> None ->
  downloadProgress (fold_left onDownloadProgress l a) <> None.
Proof.
  intros H. rewrite fold_download_progress.
  destruct (rev l); [assumption | discriminate].
Qed.

Lemma fold_flash_progress_kept l a :
  flashProgress a <> None ->
  flashProgress (fold_left onFlashProgress l a) <> None.
Proof.
  intros H. rewrite fold_flash_progress.
  destruct (rev l); [assumption | discriminate].
Qed.

Lemma handle_error_data b c :
  state (app c) <> ERROR -> state (app (handle env b c)) <> ERROR.
Proof.
  destruct c as [ap g n ts cs f]. cbn. intros Hne.
  destruct b; handlers; branches; try discriminate; auto.
Qed.

Lemma last_value_kept {A} (reported : list A) (before : option A) :
  before <> None -> last_value reported before <> None.
Proof.
  unfold last_value. destruct (rev reported); [auto | discriminate].
Qed.

Lemma resume_error_data a o c c' :
  state (app c) = in_progress a ->
  resume env a o c = Some c' -> state (app c') = ERROR ->
  exists message earlier,
    error_text c a o = Some message /\
    error (app c') = Some message /\
    logs (app c') =
      (logs (app c) ++ earlier ++
       [("[" ++ timeString env (List.length (logs (app c) ++ earlier)%list) ++
         "] " ++ "Error: " ++ message)%string])%list /\
    deviceInfo (app c') = deviceInfo (app c) /\
    matchedRelease (app c') = matchedRelease (app c) /\
    imageBlob (app c') = imageBlob (app c) /\
    downloadProgress (app c') =
      last_value (reported_download a o) (downloadProgress (app c)) /\
    flashProgress (app c') =
      last_value (reported_flash a o) (flashProgress (app c)).
Proof.
  destruct c as [ap g n ts cs f]. cbn [app]. intros Hst H.
  destruct a, o; cbn in H; try discriminate H; injection H as <-;
    unfold error_text, reported_download, reported_flash;
    handlers; branches; fields; intros He; try discriminate He;
    try congruence.
  all: rewrite ?fold_download_logs, ?fold_flash_logs,
         ?fold_download_progress, ?fold_flash_progress.
  all: eexists.
  all: first
         [ exists (@nil string); rewrite app_nil_r; cbn [List.app];
           split; [with_strategy transparent [append] reflexivity|];
           split; [with_strategy transparent [append] reflexivity|];
           split; [reflexivity|]
         | eexists [_; _]; rewrite <- !app_assoc; cbn [List.app];
           split; [reflexivity|]; split; [reflexivity|];
           split; [reflexivity|] ].
  all: repeat (split; [reflexivity|]).
  all: unfold last_value; rewrite <- ?map_rev.
  all: try reflexivity.
  destruct (rev fractions); reflexivity.
Qed.

(** C4, as the code has it.  A step enters the error state only when an
    awaited call settles, and then it records the error message of that
    settlement, writes the log line "Error: " followed by that message as
    the last line of the log, and changes nothing else of the run: device
    info, matched release and image keep their values, and a progress
    record is not cleared: it holds the last value the progress callback
    reported during the call, or what it held before the call settled
    when nothing was reported, so a record that was present stays
    present.  When the step that fails is the download, the image is
    still absent, so no downloaded bytes are retained, while the download
    progress record remains. *)
Theorem error_keeps_run_data (c : Config) (e : Event) (c' : Config) :
  reachable env c -> step env c e = Some c' ->
  state (app c) <> ERROR -> state (app c') = ERROR ->
  (exists message, error (app c') = Some message) /\
  deviceInfo (app c') = deviceInfo (app c) /\
  matchedRelease (app c') = matchedRelease (app c) /\
  imageBlob (app c') = imageBlob (app c) /\
  (downloadProgress (app c) <> None -> downloadProgress (app c') <> None) /\
  (flashProgress (app c) <> None -> flashProgress (app c') <> None) /\
  (forall asset, tasks c = [DownloadAsset asset] ->
     imageBlob (app c') = None /\ downloadProgress (app c') <> None) /\
  (exists a o message earlier,
     tasks c = [a] /\ e = Settle 0 o /\
     error_text c a o = Some message /\
     error (app c') = Some message /\
     logs (app c') =
       (logs (app c) ++ earlier ++
        [("[" ++ timeString env (List.length (logs (app c) ++ earlier)%list) ++
          "] " ++ "Error: " ++ message)%string])%list /\
     downloadProgress (app c') =
       last_value (reported_download a o) (downloadProgress (app c)) /\
     flashProgress (app c') =
       last_value (reported_flash a o) (flashProgress (app c))).
Proof.
  intros Hr Hstep Hne He.
  destruct (step_inversion c e (reachable_single_flight Hr) Hstep)
    as [(b & _ & _ & Hb & ->) | (a & o & Hev & Hts & Hst & Hres)].
  - exfalso. exact (handle_error_data b c Hne He).
  - destruct (resume_error_data a o (drop_task 0 c) Hst Hres He)
      as (message & earlier & Ht & Hm & Hl & Hd & Hm' & Hi & Hdp & Hfp).
    cbn [drop_task app] in *.
    assert (Hdk : downloadProgress (app c) <> None ->
                  downloadProgress (app c') <> None)
      by (rewrite Hdp; apply last_value_kept).
    assert (Hfk : flashProgress (app c) <> None ->
                  flashProgress (app c') <> None)
      by (rewrite Hfp; apply last_value_kept).
    split; [eauto|]. repeat (split; [assumption|]).
    split.
    + intros asset Ha. rewrite Ha in Hts. injection Hts as <-.
      destruct (reachable_no_image_yet Hr) as [Hn1 Hn2].
      rewrite Hst in Hn1, Hn2. cbn in Hn1, Hn2.
      split; [rewrite Hi; auto | auto].
    + exists a, o, message, earlier.
      split; [exact Hts|]. split; [exact Hev|].
      split; [exact Ht|]. split; [exact Hm|]. split; [exact Hl|].
      split; [exact Hdp | exact Hfp].
Qed.

(** *** The release cache across the run *)

Lemma handle_github b c : github (handle env b c) = github c.
Proof.
  destruct c as [ap g n ts cs f].
  destruct b; handlers; branches; reflexivity.
Qed.

Lemma resume_github a o c c' releases :
  releasesCache (github c) = Some releases ->
  resume env a o c = Some c' ->
  github c' = github c /\
  (forall info, a = FindMatchingRelease info -> fetched c' = fetched c).
Proof.
  destruct c as [ap g n ts cs f]. cbn. intros Hc H.
  destruct a, o; cbn in H; try discriminate H; injection H as <-;
    handlers; try rewrite (findMatchingRelease_cached _ _ _ Hc);
    branches; split; try reflexivity; intros; try discriminate;
    apply app_nil_r.
Qed.

(** *** Failures of the awaited calls *)

Lemma resume_failed a o c c' :
  state (app c) = in_progress a -> failed c a o ->
  resume env a o c = Some c' ->
  match a with
  | FastbootReboot =>
      state (app c') = SUCCESS /\ error (app c') = error (app c) /\
      tasks c' = tasks c /\
      exists stamp,
        logs (app c') =
        (logs (app c) ++ [("[" ++ stamp ++ "] Reboot command sent")%string])%list
  | _ =>
      if cancelled a o
      then (state (app c') = WAITING_ADB_CONNECT \/
            state (app c') = WAITING_FASTBOOT) /\
           error (app c') = error (app c)
      else state (app c') = ERROR /\ exists m, error (app c') = Some m
  end.
Proof.
  destruct c as [ap g n ts cs f]. cbn. intros Hst Hf H.
  destruct a, o; cbn in H; try discriminate H; injection H as <-;
    cbn in Hf; try contradiction.
  all: try (destruct r; try contradiction).
  all: handlers.
  all: try (destruct Hf as [t Hf]).
  all: cbn [github app].
  all: try (rewrite (surjective_pairing (findMatchingRelease _ _)), Hf).
  all: try (rewrite (surjective_pairing (Download.downloadAsset _ _ _)), Hf).
  all: try (assert (Hl : Fastboot.isBootloaderUnlocked device = false)
              by (destruct (Fastboot.isBootloaderUnlocked device) eqn:E;
                  [apply isBootloaderUnlocked_iff in E; congruence
                  | reflexivity]);
            rewrite Hl).
  all: branches; fields; eauto.
Qed.

(** *** Calls started by a step *)

Lemma handle_calls b c :
  calls (handle env b c) = calls c \/
  exists a, calls (handle env b c) = (calls c ++ [a])%list /\
            forall image, a <> FlashInitBoot image.
Proof.
  destruct c as [ap g n ts cs f].
  destruct b; handlers; branches; auto; right; eexists; split;
    try reflexivity; discriminate.
Qed.

Lemma resume_calls a o c c' :
  resume env a o c = Some c' ->
  calls c' = calls c \/
  exists a', calls c' = (calls c ++ [a'])%list /\
    forall image, a' = FlashInitBoot image ->
      exists captured device,
        a = IsBootloaderUnlocked captured /\ o = VariableRead device /\
        Fastboot.isBootloaderUnlocked device = true.
Proof.
  destruct c as [ap g n ts cs f]. intros H.
  destruct a, o; cbn in H; try discriminate H; injection H as <-;
    handlers; branches; auto; right; eexists; split;
    try reflexivity; try discriminate; eauto.
Qed.

Lemma resume_locked captured device c c' :
  Fastboot.isBootloaderUnlocked device = false ->
  resume env (IsBootloaderUnlocked captured) (VariableRead device) c = Some c' ->
  state (app c') = ERROR /\
  error (app c') =
    Some "Bootloader is locked. Please unlock it first before flashing." /\
  tasks c' = tasks c /\ calls c' = calls c.
Proof.
  destruct c as [ap g n ts cs f]. intros Hl H.
  cbn in H. injection H as <-. handlers. rewrite Hl. cbn. auto.
Qed.

(** C5, as the code has it.  After one successful [fetchReleases] the
    release list is cached: every later call on the same service object
    returns it without a network request.  Only [clearCache] unsets the
    cache, and the controller never calls it: no step of the controller,
    a full reset included, changes the service object, and a catalogue
    lookup made with the cache set requests nothing. *)
Theorem release_cache_persists (g g' : GitHubService) (w w' : World)
    (releases : list GitHubRelease) :
  fetchReleases (g, w) = (Resolved releases, (g', w')) ->
  releasesCache g' = Some releases /\
  (forall w2, fetchReleases (g', w2) = (Resolved releases, (g', w2))) /\
  releasesCache (clearCache g') = None /\
  (forall c e c',
     reachable env c -> github c = g' -> step env c e = Some c' ->
     github c' = g' /\
     (forall info, tasks c = [FindMatchingRelease info] ->
        fetched c' = fetched c)).
Proof.
  intros H. pose proof (fetchReleases_resolved _ _ H) as Hc.
  split; [exact Hc|]. split; [intros w2; now apply fetchReleases_cached|].
  split; [reflexivity|].
  intros c e c' Hr Hg Hstep.
  destruct (step_inversion c e (reachable_single_flight Hr) Hstep)
    as [(b & _ & Hts & _ & ->) | (a & o & _ & Hts & _ & Hres)].
  - rewrite handle_github. split; [exact Hg|]. intros info Hi. congruence.
  - rewrite <- Hg in Hc.
    destruct (@resume_github a o (drop_task 0 c) c' _ Hc Hres) as [E F].
    cbn [drop_task github fetched] in *. split; [congruence|].
    intros info Hi. rewrite Hi in Hts. injection Hts as <-. eauto.
Qed.

(** C6. [isBootloaderUnlocked] is true exactly when the device variable
    [unlocked] reads as the string [yes]; when the check made during the
    fastboot connection comes out false, the controller enters the error
    state with the locked-bootloader message and starts no call; and any
    step that does start a flash call is the settlement of an unlock
    check that came out true. *)
Theorem locked_bootloader_never_flashes (c : Config) (e : Event) (c' : Config) :
  reachable env c -> step env c e = Some c' ->
  (forall device,
     Fastboot.isBootloaderUnlocked device = true <->
     device "unlocked" = Resolved (Some "yes")) /\
  (forall captured device,
     tasks c = [IsBootloaderUnlocked captured] ->
     e = Settle 0 (VariableRead device) ->
     Fastboot.isBootloaderUnlocked device = false ->
     state (app c') = ERROR /\
     error (app c') =
       Some "Bootloader is locked. Please unlock it first before flashing." /\
     tasks c' = [] /\ calls c' = calls c) /\
  (calls c' = calls c \/
   exists a, calls c' = (calls c ++ [a])%list /\
     forall image, a = FlashInitBoot image ->
       exists captured device,
         tasks c = [IsBootloaderUnlocked captured] /\
         e = Settle 0 (VariableRead device) /\
         Fastboot.isBootloaderUnlocked device = true).
Proof.
  intros Hr Hstep. split; [exact isBootloaderUnlocked_iff|].
  destruct (step_inversion c e (reachable_single_flight Hr) Hstep)
    as [(b & -> & Hts & _ & ->) | (a & o & -> & Hts & _ & Hres)].
  - split.
    + intros captured device _ He. discriminate He.
    + destruct (handle_calls b c) as [E | (a & E & Hn)]; [now left|].
      right. exists a. split; [exact E|]. intros image Hi.
      now apply Hn in Hi.
  - split.
    + intros captured device Ha He Hl. rewrite Ha in Hts.
      injection Hts as <-. injection He as ->.
      destruct (@resume_locked captured device (drop_task 0 c) c' Hl Hres)
        as (? & ? & Ht & ?).
      cbn [drop_task tasks calls] in *. rewrite Ha in Ht. auto.
    + destruct (@resume_calls a o (drop_task 0 c) c' Hres)
        as [E | (a' & E & Hn)]; [now left|].
      right. exists a'. split; [exact E|]. intros image Hi.
      destruct (Hn image Hi) as (captured & device & -> & -> & Hu).
      exists captured, device. auto.
Qed.

(** C7. When the final reboot-to-system call throws, the controller logs
    the event and goes to the success state, not to the error state.  No
    other awaited call is treated that way: when any other call fails the
    controller enters the error state with a message, except that a
    dismissed device-selection prompt brings it back to the matching
    waiting state; a failure never lets the run proceed. *)
Theorem reboot_failure_is_success (c : Config) (a : Await) (o : Outcome)
    (c' : Config) :
  reachable env c -> tasks c = [a] -> failed c a o ->
  step env c (Settle 0 o) = Some c' ->
  match a with
  | FastbootReboot =>
      state (app c') = SUCCESS /\ error (app c') = error (app c) /\
      tasks c' = [] /\
      exists stamp,
        logs (app c') =
        (logs (app c) ++ [("[" ++ stamp ++ "] Reboot command sent")%string])%list
  | _ =>
      if cancelled a o
      then (state (app c') = WAITING_ADB_CONNECT \/
            state (app c') = WAITING_FASTBOOT) /\
           error (app c') = error (app c)
      else state (app c') = ERROR /\ exists m, error (app c') = Some m
  end.
Proof.
  intros Hr Hts Hf Hstep.
  destruct (step_inversion c _ (reachable_single_flight Hr) Hstep)
    as [(b & He & _) | (a0 & o0 & He & Hts0 & Hst & Hres)]; [discriminate|].
  injection He as <-. rewrite Hts in Hts0. injection Hts0 as <-.
  assert (Hf' : failed (drop_task 0 c) a o) by exact Hf.
  pose proof (@resume_failed a o (drop_task 0 c) c' Hst Hf' Hres) as R.
  cbn [drop_task app tasks] in R. rewrite Hts in R. exact R.
Qed.

(** *** The run data, by state *)

Ltac use_state :=
  repeat match goal with
  | H : ?x = ?x -> _ |- _ => specialize (H eq_refl)
  | H : false = true -> _ |- _ => clear H
  | H : true = false -> _ |- _ => clear H
  | H : ?x <> ?y -> _ |- _ =>
      first [ specialize (H ltac:(discriminate))
            | clear H ]
  end.

Ltac tidy :=
  intros; subst;
  repeat match goal with
  | H : Some _ = Some _ |- _ => injection H as H; subst
  | H1 : ?t = Some _, H2 : ?t = Some _ |- _ => rewrite H1 in H2
  | H : exists _, _ |- _ => destruct H
  | H : _ /\ _ |- _ => destruct H
  end.

Lemma handle_run_data_ok b c :
  tasks c = [] -> renders (state (app c)) b = true ->
  run_data_ok c -> run_data_ok (handle env b c).
Proof.
  destruct c as [ap g n ts cs f]. unfold run_data_ok. cbn.
  intros -> Hb (E1 & E2 & P1 & P2 & D1 & D2 & D3 & M1 & M2 & M3 & I1 & _).
  destruct b, (state ap) eqn:Hst; try discriminate Hb; handlers; branches;
    use_state;
    repeat split; tidy; try discriminate; try congruence; eauto;
    try (repeat constructor; cbn; eauto; fail);
    match goal with
    | H : _ (state _) = _ |- _ => rewrite Hst in H; discriminate H
    end.
Qed.

Lemma resume_run_data_ok a o c c' :
  tasks c = [] -> state (app c) = in_progress a -> task_ok (app c) a ->
  run_data_ok c -> resume env a o c = Some c' -> run_data_ok c'.
Proof.
  destruct c as [ap g n ts cs f]. unfold run_data_ok. cbn.
  intros -> Hst Ha (E1 & E2 & P1 & P2 & D1 & D2 & D3 & M1 & M2 & M3 & I1 & _) H.
  rewrite Hst in *.
  destruct a, o; cbn in H; try discriminate H; injection H as <-;
    handlers; branches; fields; use_state;
    repeat match goal with
    | H : findMatchingRelease _ _ = (Resolved (Some _), _) |- _ =>
        apply findMatchingRelease_tag in H
    end;
    repeat split; tidy; try discriminate; try congruence; eauto 10;
    try (repeat constructor; cbn; eauto; fail);
    try (unfold eligible; eauto; fail);
    match goal with
    | H : _ (state _) = _ |- _ => rewrite Hst in H; discriminate H
    end.
Qed.

Lemma reachable_run_data_ok c : reachable env c -> run_data_ok c.
Proof.
  induction 1 as [|c e c' Hr IH Hstep].
  - unfold run_data_ok. cbn.
    repeat split; intros; try discriminate; try reflexivity; constructor.
  - destruct (step_inversion c e (reachable_single_flight Hr) Hstep)
      as [(b & _ & Hts & Hb & ->) | (a & o & _ & Hts & Hst & Hres)].
    + now apply handle_run_data_ok.
    + apply (@resume_run_data_ok a o (drop_task 0 c) c'); auto.
      * cbn. now rewrite Hts.
      * destruct IH as (_ & _ & _ & _ & _ & _ & _ & _ & _ & _ & _ & Ht).
        rewrite Hts in Ht. inversion Ht; assumption.
      * destruct IH as (E1 & E2 & P1 & P2 & D1 & D2 & D3 & M1 & M2 & M3 & I1 & _).
        unfold run_data_ok. cbn [drop_task app tasks].
        repeat (split; [assumption|]). rewrite Hts. cbn. constructor.
Qed.

(** The error message is present exactly in the error state, and the only
    way out of that state is the reset, which restores the initial state. *)
Theorem error_message_iff_error_state (c : Config) :
  reachable env c ->
  (error (app c) <> None <-> state (app c) = ERROR) /\
  (state (app c) = ERROR ->
   forall e c', step env c e = Some c' ->
     e = Click BtnReset /\ app c' = initialState /\ tasks c' = []).
Proof.
  intros Hr.
  destruct (reachable_run_data_ok Hr) as (E1 & E2 & _).
  split.
  - destruct (state (app c)) eqn:Hst; cbn in E1, E2;
      (split; [intros Hn; try reflexivity; exfalso; apply Hn; now apply E2
              | intros He; try discriminate He; now apply E1]).
  - intros Hst e c' Hstep.
    destruct (step_inversion c e (reachable_single_flight Hr) Hstep)
      as [(b & -> & Hts & Hb & ->) | (a & o & _ & _ & Ha & _)].
    + rewrite Hst in Hb. destruct b; try discriminate Hb.
      cbn. auto.
    + rewrite Hst in Ha. destruct a; discriminate Ha.
Qed.

(** A progress record is present only while its own step runs, or in the
    error state a failure of that step led to: the completion of the
    download and of the flash, and the reset, clear it. *)
Theorem progress_only_during_its_step (c : Config) :
  reachable env c ->
  (downloadProgress (app c) <> None ->
     state (app c) = DOWNLOADING_IMAGE \/ state (app c) = ERROR) /\
  (flashProgress (app c) <> None ->
     state (app c) = FLASHING \/ state (app c) = ERROR).
Proof.
  intros Hr.
  destruct (reachable_run_data_ok Hr) as (_ & _ & P1 & P2 & _).
  split; intros Hn.
  - destruct (state (app c)) eqn:Hst; auto;
      exfalso; apply Hn; apply P1; (reflexivity || discriminate).
  - destruct (state (app c)) eqn:Hst; auto;
      exfalso; apply Hn; apply P2; (reflexivity || discriminate).
Qed.

(** *** The device and the release *)

Lemma eligible_model d :
  eligible d ->
  exists parsed,
    Version.parseVersion (firmwareVersion d) = Some parsed /\
    Version.modelCode parsed = "CPH2551" /\
    Version.fullVersion parsed = firmwareVersion d.
Proof.
  intros (parsed & Hp & Ho). exists parsed.
  split; [exact Hp|]. split.
  - now apply String.eqb_eq.
  - now destruct (parseVersion_sound _ Hp).
Qed.

Lemma resume_ineligible info c c' :
  ~ eligible info ->
  resume env GetDeviceInfo (DeviceInfoRead (Resolved info)) c = Some c' ->
  state (app c') = ERROR /\
  error (app c') = Some "This tool only supports OnePlus Open (CPH2551)" /\
  deviceInfo (app c') = deviceInfo (app c) /\
  tasks c' = tasks c /\ calls c' = calls c /\ fetched c' = fetched c.
Proof.
  destruct c as [ap g n ts cs f]. intros Hn H.
  cbn in H. injection H as <-. handlers.
  branches; try (exfalso; apply Hn; unfold eligible; eauto; fail);
    repeat split; reflexivity.
Qed.

(** The controller keeps device information only of a device it accepts:
    one whose firmware identifier parses and names the model CPH2551.  A
    device that is read successfully but is not accepted sends the run to
    the error state with the unsupported-device message; its information
    is not stored, and no catalogue lookup or other call follows. *)
Theorem only_eligible_devices_proceed (c : Config) :
  reachable env c ->
  (forall d, deviceInfo (app c) = Some d ->
     exists parsed,
       Version.parseVersion (firmwareVersion d) = Some parsed /\
       Version.modelCode parsed = "CPH2551" /\
       Version.fullVersion parsed = firmwareVersion d) /\
  (forall info c',
     ~ eligible info ->
     step env c (Settle 0 (DeviceInfoRead (Resolved info))) = Some c' ->
     state (app c') = ERROR /\
     error (app c') = Some "This tool only supports OnePlus Open (CPH2551)" /\
     deviceInfo (app c') = None /\
     tasks c' = [] /\ calls c' = calls c /\ fetched c' = fetched c).
Proof.
  intros Hr.
  destruct (reachable_run_data_ok Hr) as (_ & _ & _ & _ & D1 & _ & D3 & _).
  split.
  - intros d Hd. apply eligible_model. now apply D1.
  - intros info c' Hn Hstep.
    destruct (step_inversion c _ (reachable_single_flight Hr) Hstep)
      as [(b & He & _) | (a & o & He & Hts & Hst & Hres)]; [discriminate|].
    injection He as <-.
    destruct a; try discriminate Hres.
    destruct (@resume_ineligible info (drop_task 0 c) c' Hn Hres)
      as (H1 & H2 & H3 & H4 & H5 & H6).
    cbn [drop_task app tasks calls fetched] in *. rewrite Hts in H4.
    repeat (split; [assumption|]). split; [|auto].
    rewrite H3. cbn in Hst. rewrite Hst in D3. now apply D3.
Qed.

Lemma downloadImage_starts ap g n cs f release asset :
  matchedRelease ap = Some release ->
  getPatchedImageAsset release = Some asset ->
  let c' := downloadImage env
              {| app := ap; github := g; sessions := n; tasks := [];
                 calls := cs; fetched := f |} in
  tasks c' = [DownloadAsset asset] /\
  calls c' = (cs ++ [DownloadAsset asset])%list /\
  state (app c') = DOWNLOADING_IMAGE /\
  downloadProgress (app c') =
    Some {| loaded := 0; total := size asset; percentage := 0 |} /\
  imageBlob (app c') = imageBlob ap.
Proof.
  intros Hm Ha. unfold downloadImage. cbn. rewrite Hm, Ha. cbn. auto.
Qed.

(** In the release-matched state the matched release is the one whose tag
    equals the device's firmware identifier, and it has the patched image
    named [magisk_patched_init_boot.img]; a click on the download button
    therefore always starts the download of exactly that asset, with a
    progress record announcing its size. *)
Theorem download_button_fetches_the_patched_image (c : Config) :
  reachable env c -> state (app c) = RELEASE_MATCHED ->
  exists d release asset c',
    deviceInfo (app c) = Some d /\
    matchedRelease (app c) = Some release /\
    tag_name release = firmwareVersion d /\
    In asset (assets release) /\
    name asset = "magisk_patched_init_boot.img" /\
    step env c (Click BtnDownloadImage) = Some c' /\
    tasks c' = [DownloadAsset asset] /\
    state (app c') = DOWNLOADING_IMAGE /\
    downloadProgress (app c') =
      Some {| loaded := 0; total := size asset; percentage := 0 |}.
Proof.
  intros Hr Hst.
  destruct (reachable_run_data_ok Hr)
    as (_ & _ & _ & _ & _ & _ & _ & M1 & _ & M3 & _).
  rewrite Hst in M3. specialize (M3 eq_refl).
  destruct (matchedRelease (app c)) as [release|] eqn:Hm; [|congruence].
  destruct (M1 release eq_refl) as (d & asset & Hd & Ht & Ha).
  destruct (getPatchedImageAsset_found _ Ha) as [Hin Hname].
  assert (Hts : tasks c = []).
  { destruct (single_flight_cases c (reachable_single_flight Hr))
      as [E | (a & _ & E)]; [exact E|].
    rewrite Hst in E. destruct a; discriminate E. }
  exists d, release, asset, (downloadImage env c).
  repeat (split; [first [assumption | reflexivity]|]).
  split; [unfold step; rewrite Hst; reflexivity|].
  destruct c as [ap g n ts cs f]. cbn in *. subst ts.
  destruct (@downloadImage_starts ap g n cs f release asset Hm Ha)
    as (H1 & _ & H3 & H4 & _).
  auto.
Qed.

(** *** From the download to the flash *)

Lemma handle_imageBlob b c :
  imageBlob (app (handle env b c)) = imageBlob (app c) \/
  (b = BtnReset /\ imageBlob (app (handle env b c)) = None).
Proof.
  destruct c as [ap g n ts cs f].
  destruct b; handlers; branches; auto.
Qed.

Lemma resume_imageBlob a o c c' :
  resume env a o c = Some c' ->
  imageBlob (app c') = imageBlob (app c) \/
  exists asset n blob,
    a = DownloadAsset asset /\ o = Network n /\
    fst (Download.downloadAsset (browser_download_url asset) true
           (new_world n)) = Resolved blob /\
    imageBlob (app c') = Some blob.
Proof.
  destruct c as [ap g n ts cs f]. intros H.
  destruct a, o; cbn in H; try discriminate H; injection H as <-;
    handlers; branches; fields; auto.
  right. do 3 eexists. repeat split. rewrite Heqp. reflexivity.
Qed.

Lemma resume_unlocked captured device c c' image :
  captured = Some image ->
  Fastboot.isBootloaderUnlocked device = true ->
  resume env (IsBootloaderUnlocked captured) (VariableRead device) c = Some c' ->
  state (app c') = FLASHING /\
  tasks c' = (tasks c ++ [FlashInitBoot image])%list /\
  calls c' = (calls c ++ [FlashInitBoot image])%list /\
  imageBlob (app c') = imageBlob (app c).
Proof.
  destruct c as [ap g n ts cs f]. intros -> Hu H.
  cbn in H. injection H as <-. handlers. rewrite Hu. cbn. auto.
Qed.

(** The image that is flashed is the image that was downloaded.  The
    image held by the controller changes only when a download resolves
    (to the bytes it resolved with) and on reset (to none); a flash call
    in progress carries exactly the image held; and once the unlock check
    passes, the flash of that image always starts. *)
Theorem flashes_what_was_downloaded (c : Config) (e : Event) (c' : Config) :
  reachable env c -> step env c e = Some c' ->
  (imageBlob (app c') = imageBlob (app c) \/
   (e = Click BtnReset /\ imageBlob (app c') = None) \/
   exists asset n blob,
     tasks c = [DownloadAsset asset] /\ e = Settle 0 (Network n) /\
     fst (Download.downloadAsset (browser_download_url asset) true
            (new_world n)) = Resolved blob /\
     imageBlob (app c') = Some blob) /\
  (forall image, In (FlashInitBoot image) (tasks c') ->
     imageBlob (app c') = Some image) /\
  (forall captured device,
     tasks c = [IsBootloaderUnlocked captured] ->
     e = Settle 0 (VariableRead device) ->
     Fastboot.isBootloaderUnlocked device = true ->
     exists image,
       imageBlob (app c) = Some image /\
       tasks c' = [FlashInitBoot image] /\
       state (app c') = FLASHING).
Proof.
  intros Hr Hstep.
  assert (Hr' : reachable env c') by (eapply reach_step; eassumption).
  split; [|split].
  - destruct (step_inversion c e (reachable_single_flight Hr) Hstep)
      as [(b & -> & _ & _ & ->) | (a & o & -> & Hts & _ & Hres)].
    + destruct (handle_imageBlob b c) as [H | [-> H]]; auto.
    + destruct (@resume_imageBlob a o (drop_task 0 c) c' Hres)
        as [H | (asset & n & blob & -> & -> & Hb & Hi)]; [now left|].
      right. right. exists asset, n, blob. auto.
  - intros image Hin.
    destruct (reachable_run_data_ok Hr')
      as (_ & _ & _ & _ & _ & _ & _ & _ & _ & _ & _ & Ht).
    rewrite Forall_forall in Ht. exact (Ht _ Hin).
  - intros captured device Hts -> Hu.
    destruct (reachable_run_data_ok Hr)
      as (_ & _ & _ & _ & _ & _ & _ & _ & _ & _ & I1 & Ht).
    rewrite Hts in Ht. inversion Ht as [|? ? Hc _]; subst. cbn in Hc.
    pose proof (reachable_single_flight Hr) as Hsf.
    unfold single_flight in Hsf. rewrite Hts in Hsf. cbn in Hsf.
    rewrite Hsf in I1. specialize (I1 eq_refl).
    destruct (imageBlob (app c)) as [image|] eqn:Hi; [|congruence].
    exists image. split; [reflexivity|].
    unfold step in Hstep. rewrite Hts in Hstep. cbn [nth_error] in Hstep.
    destruct (@resume_unlocked captured device (drop_task 0 c) c' image
                Hc Hu Hstep) as (H1 & H2 & _).
    cbn [drop_task tasks] in H2. rewrite Hts in H2. auto.
Qed.

(** *** The order of the calls *)

Lemma app_one_not_self {A} (l : list A) (x : A) : l <> (l ++ [x])%list.
Proof.
  intros H. apply (f_equal (@List.length A)) in H.
  rewrite length_app in H. cbn in H. lia.
Qed.

Ltac which_call :=
  intros;
  repeat match goal with
  | H : ?l = (?l ++ [_])%list |- _ => destruct (@app_one_not_self _ _ _ H)
  | H : (?l ++ [_])%list = (?l ++ [_])%list |- _ =>
      apply app_inv_head in H; injection H as H;
      try discriminate H; try (injection H as H); subst
  end.

Lemma handle_started_by b c a' :
  renders (state (app c)) b = true ->
  calls (handle env b c) = (calls c ++ [a'])%list ->
  started_by c (Click b) a'.
Proof.
  destruct c as [ap g n ts cs f]. cbn.
  intros Hb.
  destruct b, (state ap) eqn:Hst; try discriminate Hb; handlers; branches;
    which_call; cbn; rewrite ?Hst; auto.
Qed.

Lemma resume_started_by a o c c' a' :
  resume env a o c = Some c' ->
  calls c' = (calls c ++ [a'])%list ->
  match a' with
  | GetDeviceInfo => a = AdbConnect /\ exists u, o = Device (Resolved u)
  | FindMatchingRelease info =>
      a = GetDeviceInfo /\ o = DeviceInfoRead (Resolved info) /\ eligible info
  | AdbDisconnect =>
      a = AdbRebootToBootloader /\ exists u, o = Device (Resolved u)
  | IsBootloaderUnlocked captured =>
      a = FastbootConnect captured /\ o = FastbootConnected (Resolved true)
  | FlashInitBoot _ =>
      exists captured device,
        a = IsBootloaderUnlocked captured /\ o = VariableRead device /\
        Fastboot.isBootloaderUnlocked device = true
  | FastbootReboot =>
      exists image fractions u,
        a = FlashInitBoot image /\ o = Flashed fractions (Resolved u)
  | _ => False
  end.
Proof.
  destruct c as [ap g n ts cs f]. intros H.
  destruct a, o; cbn in H; try discriminate H; injection H as <-;
    handlers; branches; which_call; cbn; unfold eligible; eauto 10.
Qed.

(** The calls follow the order of the flow.  Whenever a step starts a
    call, the call before it in the sequence has just succeeded, or the
    user has just clicked the button of the state the controller is in:
    device information is read only after the ADB connection succeeded,
    the catalogue is looked up only for an accepted device, the ADB
    session is closed only after the reboot command succeeded, the unlock
    check is made only on an established fastboot connection, the flash
    starts only after the check passed, and the reboot to the system is
    issued only after the flash succeeded. *)
Theorem calls_follow_the_flow (c : Config) (e : Event) (c' : Config)
    (a : Await) :
  reachable env c -> step env c e = Some c' ->
  calls c' = (calls c ++ [a])%list ->
  started_by c e a.
Proof.
  intros Hr Hstep Hc.
  destruct (step_inversion c e (reachable_single_flight Hr) Hstep)
    as [(b & -> & _ & Hb & ->) | (a0 & o & -> & Hts & _ & Hres)].
  - now apply handle_started_by.
  - pose proof (@resume_started_by a0 o (drop_task 0 c) c' a Hres Hc) as R.
    destruct a; cbn in R |- *; try contradiction.
    + destruct R as (-> & u & ->). eauto.
    + destruct R as (-> & -> & He). auto.
    + destruct R as (-> & u & ->). eauto.
    + destruct R as (-> & ->). auto.
    + destruct R as (captured & device & -> & -> & Hu). eauto 6.
    + destruct R as (image & fr & u & -> & ->). eauto 6.
Qed.

(** *** A browser without WebUSB *)

(** Without WebUSB the tool does nothing: the only step possible is the
    click on the connect button, which leads to the unsupported-browser
    state; no device call and no network request is ever made, and in the
    unsupported-browser state no event is enabled any more. *)
Theorem unsupported_browser_makes_no_call (c : Config) :
  webusb_supported env = false -> reachable env c ->
  (state (app c) = IDLE \/ state (app c) = BROWSER_UNSUPPORTED) /\
  tasks c = [] /\ calls c = [] /\ fetched c = [] /\
  (state (app c) = BROWSER_UNSUPPORTED -> forall e, step env c e = None).
Proof.
  intros Hw Hr.
  assert (Inv : (state (app c) = IDLE \/ state (app c) = BROWSER_UNSUPPORTED) /\
                tasks c = [] /\ calls c = [] /\ fetched c = []).
  { induction Hr as [|c e c' Hr IH Hstep].
    - cbn. auto.
    - destruct IH as (Hst & Hts & Hcs & Hf).
      destruct c as [ap g n ts cs f]. cbn in *. subst ts cs f.
      destruct e as [b | i o]; unfold step in Hstep; cbn in Hstep.
      + destruct Hst as [Hst | Hst]; rewrite Hst in Hstep;
          destruct b; cbn in Hstep; try discriminate Hstep.
        injection Hstep as <-. unfold handle, connectAdb, checkBrowser.
        rewrite Hw. cbn. auto.
      + destruct i; discriminate Hstep. }
  destruct Inv as (Hst & Hts & Hcs & Hf).
  repeat (split; [assumption|]).
  intros Hu [b | i o]; unfold step.
  - rewrite Hu. destruct b; reflexivity.
  - rewrite Hts. destruct i; reflexivity.
Qed.

(** *** Starting over *)

Lemma step_same_run c1 c2 e c1' :
  same_run c1 c2 -> step env c1 e = Some c1' ->
  exists c2', step env c2 e = Some c2' /\ same_run c1' c2'.
Proof.
  destruct c1 as [ap g n1 ts cs1 f1], c2 as [ap2 g2 n2 ts2 cs2 f2].
  unfold same_run. cbn. intros (<- & <- & <-) H.
  destruct e as [b | i o]; unfold step in *; cbn in *.
  - destruct (renders (state ap) b); [|discriminate H].
    injection H as <-. eexists. split; [reflexivity|].
    destruct b; handlers; branches; repeat split; reflexivity.
  - destruct (nth_error ts i) as [a|]; [|discriminate H].
    destruct a, o; cbn in H |- *; try discriminate H; injection H as <-;
      (eexists; split; [reflexivity|]);
      handlers; branches; repeat split; reflexivity.
Qed.

Lemma same_run_sym c1 c2 : same_run c1 c2 -> same_run c2 c1.
Proof. intros (H1 & H2 & H3). repeat split; congruence. Qed.

Lemma run_same_run es : forall c1 c2,
  same_run c1 c2 ->
  match run env c1 es, run env c2 es with
  | Some d1, Some d2 => same_run d1 d2
  | None, None => True
  | _, _ => False
  end.
Proof.
  induction es as [|e es IH]; intros c1 c2 Hs; cbn [run].
  - exact Hs.
  - destruct (step env c1 e) as [c1'|] eqn:E1.
    + destruct (@step_same_run c1 c2 e c1' Hs E1) as (c2' & E2 & Hs').
      rewrite E2. now apply IH.
    + destruct (step env c2 e) as [c2'|] eqn:E2; [|exact I].
      destruct (@step_same_run c2 c1 e c2' (same_run_sym Hs) E2)
        as (c1' & E1' & _).
      congruence.
Qed.

(** Starting over is a fresh start.  The reset button leaves the
    controller in a configuration it cannot tell from a freshly loaded
    page that has the same catalogue service: the same events are enabled
    from then on, and they lead to the same state, the same cache and the
    same suspended handlers. *)
Theorem reset_is_a_fresh_start (c c' : Config) (es : list Event) :
  reachable env c -> step env c (Click BtnReset) = Some c' ->
  app c' = initialState /\ tasks c' = [] /\ sessions c' = S (sessions c) /\
  match run env c' es, run env (fresh (github c)) es with
  | Some d1, Some d2 => same_run d1 d2
  | None, None => True
  | _, _ => False
  end.
Proof.
  intros Hr Hstep.
  destruct (step_inversion c _ (reachable_single_flight Hr) Hstep)
    as [(b & Hb & Hts & _ & ->) | (a & o & He & _)]; [|discriminate He].
  injection Hb as <-. cbn.
  split; [reflexivity|]. split; [exact Hts|]. split; [reflexivity|].
  apply run_same_run. unfold same_run, fresh. cbn. auto.
Qed.

(** *** The log *)

Ltac extend_log :=
  rewrite ?fold_download_logs, ?fold_flash_logs;
  rewrite <- ?app_assoc;
  first [ eexists; reflexivity
        | exists []; rewrite app_nil_r; reflexivity ].

(** Within a run the log only grows: every step other than the reset
    keeps the lines logged so far and appends to them. *)
Theorem log_only_grows (c : Config) (e : Event) (c' : Config) :
  step env c e = Some c' -> e <> Click BtnReset ->
  exists more, logs (app c') = (logs (app c) ++ more)%list.
Proof.
  destruct c as [ap g n ts cs f]. intros H Hn.
  destruct e as [b | i o]; unfold step in H; cbn in H.
  - destruct (renders (state ap) b); [|discriminate H]. injection H as <-.
    destruct b; try congruence; handlers; branches; extend_log.
  - destruct (nth_error ts i) as [a|]; [|discriminate H].
    destruct a, o; cbn in H; try discriminate H; injection H as <-;
      handlers; branches; extend_log.
Qed.

End FlowFacts.

(** ** The ADB session and the controller *)
Section AdbFlowFacts.

Import Adb Flow.
Local Open Scope string_scope.

Variable env : Env.
Variable usb : Usb.

(** When the user dismisses the device picker, the connect handler of the
    controller does not fail the run: the rejection of [connect] brings
    the controller back to the waiting state, with no error recorded and
    the connect button on screen again.  The handler recognises the
    dismissal by the text "No device selected" in the error's message, so
    every rejection whose message contains it is treated the same way.
    Every other rejection of [connect] ends in the error state with
    "ADB connection failed: " followed by the error's message, or by
    "Unknown error" when what was thrown is not an error object. *)
Theorem dismissed_picker_is_recoverable (st : St) (c c' : Config) :
  reachable env c -> tasks c = [AdbConnect] ->
  step env c (Settle 0 (Device (fst (connect usb st)))) = Some c' ->
  (browser usb = true -> requestDevice usb = Resolved None ->
   state (app c') = WAITING_ADB_CONNECT /\
   error (app c') = None /\ tasks c' = [] /\ calls c' = calls c /\
   renders (state (app c')) BtnConnectAdb = true) /\
  (forall t,
     fst (connect usb st) = Rejected t ->
     if includes (catch_message t) "No device selected"
     then state (app c') = WAITING_ADB_CONNECT /\
          error (app c') = None /\ tasks c' = [] /\ calls c' = calls c /\
          renders (state (app c')) BtnConnectAdb = true
     else state (app c') = ERROR /\
          error (app c') = Some ("ADB connection failed: " ++ catch_message t) /\
          tasks c' = [] /\ calls c' = calls c) /\
  (forall message,
     fst (connect usb st) = Rejected (ErrorObj message) ->
     includes message "No device selected" = false ->
     state (app c') = ERROR /\
     error (app c') = Some ("ADB connection failed: " ++ message) /\
     tasks c' = []) /\
  (fst (connect usb st) = Rejected NonError ->
   state (app c') = ERROR /\
   error (app c') = Some "ADB connection failed: Unknown error" /\
   tasks c' = []).
Proof.
  intros Hr Hts Hstep.
  pose proof (reachable_single_flight Hr) as Hsf.
  unfold single_flight in Hsf. rewrite Hts in Hsf. cbn in Hsf.
  destruct (reachable_run_data_ok Hr) as (_ & E2 & _).
  rewrite Hsf in E2. specialize (E2 eq_refl).
  unfold step in Hstep. rewrite Hts in Hstep. cbn [nth_error resume] in Hstep.
  injection Hstep as Hc'.
  destruct c as [ap g n ts cs f]. cbn in Hts, E2. subst ts.
  assert (Hall : forall t,
    fst (connect usb st) = Rejected t ->
    if includes (catch_message t) "No device selected"
    then state (app c') = WAITING_ADB_CONNECT /\
         error (app c') = None /\ tasks c' = [] /\ calls c' = cs /\
         renders (state (app c')) BtnConnectAdb = true
    else state (app c') = ERROR /\
         error (app c') =
           Some ("ADB connection failed: " ++ catch_message t) /\
         tasks c' = [] /\ calls c' = cs).
  { intros t Hc. rewrite <- Hc', Hc. unfold after_AdbConnect.
    destruct (includes (catch_message t) "No device selected"); cbn; auto. }
  split; [|split; [exact Hall | split]].
  - intros Hb Hp. destruct st as [service issued].
    rewrite <- Hc', (@connect_dismissed usb service issued Hb Hp). cbn. auto.
  - intros message Hc Hi. specialize (Hall _ Hc).
    cbn [catch_message] in Hall. rewrite Hi in Hall.
    destruct Hall as (H1 & H2 & H3 & _). auto.
  - intros Hc. specialize (Hall _ Hc).
    change (includes (catch_message NonError) "No device selected")
      with false in Hall.
    destruct Hall as (H1 & H2 & H3 & _). auto.
Qed.

End AdbFlowFacts.

(** ** The scenario, run *)
Section ScenarioFacts.

Import Flow GitHub Download Scenario.
Local Open Scope string_scope.

Lemma after_reachable es : reachable env (after es).
Proof.
  unfold after. destruct (run env init es) as [c|] eqn:E.
  - eapply run_reachable; [apply reach_init | exact E].
  - apply reach_init.
Qed.

Example scenario_states :
  state (app (after to_release_matched)) = RELEASE_MATCHED /\
  state (app (after to_failed_download)) = ERROR /\
  state (app (after to_waiting_fastboot)) = WAITING_FASTBOOT /\
  state (app (after to_unlock_check)) = FASTBOOT_CONNECTING /\
  state (app (after to_reboot)) = REBOOTING_SYSTEM /\
  fetched (after to_reboot) =
    [ releases_url;
      "https://api.codetabs.com/v1/proxy?quest=https%3A%2F%2Fexample.org%2Fmagisk_patched_init_boot.img" ].
Proof. vm_compute. repeat split. Qed.

Lemma single_flight_invariant_witness :
  tasks (after to_unlock_check) = [IsBootloaderUnlocked (Some [x01; x02; x03])] /\
  state (app (after to_unlock_check)) = FASTBOOT_CONNECTING /\
  (List.length (tasks (after to_unlock_check)) <= 1)%nat.
Proof.
  destruct (@single_flight_invariant env (after to_unlock_check)
              (after_reachable to_unlock_check)) as (Hlen & Hst & _).
  split; [vm_compute; reflexivity|]. split; [|exact Hlen].
  apply (Hst (IsBootloaderUnlocked (Some [x01; x02; x03]))).
  vm_compute. left. reflexivity.
Defined.


Lemma fetchReleases_failure_keeps_cache_unset_witness :
  releasesCache new_GitHubService = None /\
  requests (snd (snd (fetchReleases
                        (new_GitHubService, new_world net_unavailable)))) =
    [releases_url] /\
  forall w2 : World,
    requests (snd (snd (fetchReleases (new_GitHubService, w2)))) =
    (requests w2 ++ [releases_url])%list.
Proof.
  apply (@fetchReleases_failure_keeps_cache_unset
           new_GitHubService new_GitHubService (new_world net_unavailable)
           (snd (snd (fetchReleases
                        (new_GitHubService, new_world net_unavailable))))
           (ErrorObj "Failed to fetch releases: 503 Service Unavailable")).
  - reflexivity.
  - reflexivity.
Defined.

Lemma downloadWithProgress_assembles_witness :
  exists reported : list DownloadProgress,
    progress_calls
      (snd (downloadWithProgress
              (respond true 200 "OK" (Rejected NonError) (Some image_body))
              true (new_world net_image))) =
      ([] ++ reported)%list /\
    (true = true -> map loaded reported = [2; 3]) /\
    StronglySorted Z.le (map loaded reported) /\
    (failure image_body = None ->
       fst (downloadWithProgress
              (respond true 200 "OK" (Rejected NonError) (Some image_body))
              true (new_world net_image)) =
         Resolved [x01; x02; x03] /\
       blob_size [x01; x02; x03] = 3).
Proof.
  exact (@downloadWithProgress_assembles
           (respond true 200 "OK" (Rejected NonError) (Some image_body))
           image_body true (new_world net_image) eq_refl).
Defined.

(** The download of the scenario fails after one chunk of two bytes was
    reported: the controller is in the error state, holds no image, and
    still holds the progress record of that chunk. *)
Lemma error_retains_download_progress :
  state (app (after to_failed_download)) = ERROR /\
  error (app (after to_failed_download)) =
    Some "Download failed: Download failed: network error" /\
  imageBlob (app (after to_failed_download)) = None /\
  option_map loaded (downloadProgress (app (after to_failed_download))) =
    Some 2 /\
  ~ error_clears_progress env.
Proof.
  repeat split; try reflexivity.
  intros H.
  destruct (H (after (to_release_matched ++ [Click BtnDownloadImage])%list)
              (Settle 0 (Network net_broken))
              (after to_failed_download)) as [Hd _].
  - apply after_reachable.
  - vm_compute. reflexivity.
  - vm_compute. discriminate.
  - reflexivity.
  - vm_compute in Hd. discriminate Hd.
Qed.

Lemma error_keeps_run_data_witness :
  imageBlob (app (after to_failed_download)) = None /\
  downloadProgress (app (after to_failed_download)) <> None /\
  matchedRelease (app (after to_failed_download)) = Some release /\
  downloadProgress (app (after to_failed_download)) =
    last_value (reported_download (DownloadAsset patched) (Network net_broken))
      (downloadProgress
         (app (after (to_release_matched ++ [Click BtnDownloadImage])%list))) /\
  option_map loaded (downloadProgress (app (after to_failed_download))) =
    Some 2 /\
  error (app (after to_failed_download)) =
    error_text (after (to_release_matched ++ [Click BtnDownloadImage])%list)
      (DownloadAsset patched) (Network net_broken).
Proof.
  destruct (@error_keeps_run_data env
              (after (to_release_matched ++ [Click BtnDownloadImage])%list)
              (Settle 0 (Network net_broken))
              (after to_failed_download))
    as (_ & _ & Hm & _ & _ & _ & Hd &
        (a & o & message & earlier & Hts & Hev & Ht & He & _ & Hdp & _)).
  - apply after_reachable.
  - vm_compute. reflexivity.
  - vm_compute. discriminate.
  - reflexivity.
  - destruct (Hd patched eq_refl) as [Hi Hp].
    assert (Ha : a = DownloadAsset patched)
      by (vm_compute in Hts; injection Hts as <-; reflexivity).
    injection Hev as <-. subst a.
    split; [exact Hi|]. split; [exact Hp|].
    split; [rewrite Hm; reflexivity|].
    split; [exact Hdp|].
    split; [rewrite Hdp; vm_compute; reflexivity|].
    rewrite He, Ht. reflexivity.
Defined.

(** After the failed download the user starts over: the reset leaves the
    release list of the first lookup in the cache. *)
Lemma reset_keeps_release_cache :
  state (app (after (to_failed_download ++ [Click BtnReset])%list)) = IDLE /\
  releasesCache (github (after (to_failed_download ++ [Click BtnReset])%list)) =
    Some catalogue /\
  ~ reset_clears_cache env.
Proof.
  repeat split; try reflexivity.
  intros H.
  assert (Hc : releasesCache
                 (github (after (to_failed_download ++ [Click BtnReset])%list)) =
               None).
  { apply (H (after to_failed_download)).
    - apply after_reachable.
    - vm_compute. reflexivity. }
  vm_compute in Hc. discriminate Hc.
Qed.

Lemma release_cache_persists_witness :
  releasesCache {| releasesCache := Some catalogue |} = Some catalogue /\
  (forall w2,
     fetchReleases ({| releasesCache := Some catalogue |}, w2) =
       (Resolved catalogue, ({| releasesCache := Some catalogue |}, w2))) /\
  releasesCache (clearCache {| releasesCache := Some catalogue |}) = None /\
  (forall c e c',
     reachable env c -> github c = {| releasesCache := Some catalogue |} ->
     step env c e = Some c' ->
     github c' = {| releasesCache := Some catalogue |} /\
     (forall info, tasks c = [FindMatchingRelease info] ->
        fetched c' = fetched c)).
Proof.
  apply (@release_cache_persists env new_GitHubService
           {| releasesCache := Some catalogue |}
           (new_world net_catalogue)
           (snd (fetch releases_url (new_world net_catalogue)))
           catalogue).
  reflexivity.
Defined.

Lemma locked_bootloader_never_flashes_witness :
  state (app (after (to_unlock_check ++
                     [Settle 0 (VariableRead locked_phone)])%list)) = ERROR /\
  calls (after (to_unlock_check ++
                [Settle 0 (VariableRead locked_phone)])%list) =
    calls (after to_unlock_check).
Proof.
  destruct (@locked_bootloader_never_flashes env
              (after to_unlock_check)
              (Settle 0 (VariableRead locked_phone))
              (after (to_unlock_check ++
                      [Settle 0 (VariableRead locked_phone)])%list))
    as (_ & Hl & _).
  - apply after_reachable.
  - vm_compute. reflexivity.
  - destruct (Hl (Some [x01; x02; x03]) locked_phone eq_refl eq_refl eq_refl)
      as (Hs & _ & _ & Hc).
    split; [exact Hs | exact Hc].
Defined.

Lemma reboot_failure_is_success_witness :
  state (app (after (to_reboot ++
                     [Settle 0 (Device (Rejected (ErrorObj "device gone")))])%list))
    = SUCCESS /\
  error (app (after (to_reboot ++
                     [Settle 0 (Device (Rejected (ErrorObj "device gone")))])%list))
    = error (app (after to_reboot)) /\
  tasks (after (to_reboot ++
                [Settle 0 (Device (Rejected (ErrorObj "device gone")))])%list)
    = [].
Proof.
  destruct (@reboot_failure_is_success env (after to_reboot) FastbootReboot
              (Device (Rejected (ErrorObj "device gone")))
              (after (to_reboot ++
                      [Settle 0 (Device (Rejected (ErrorObj "device gone")))])%list))
    as (Hs & He & Ht & _).
  - apply after_reachable.
  - reflexivity.
  - exact I.
  - vm_compute. reflexivity.
  - split; [exact Hs | split; [exact He | exact Ht]].
Defined.

(** *** The further properties, on the scenario *)

Lemma after_in_reachable e es : reachable e (after_in e es).
Proof.
  unfold after_in. destruct (run e init es) as [c|] eqn:E.
  - eapply run_reachable; [apply reach_init | exact E].
  - apply reach_init.
Qed.

Lemma versionsMatch_ignores_padding_witness :
  Version.versionsMatch (" " ++ firmware ++ "  ") firmware =
  Version.versionsMatch firmware firmware.
Proof.
  exact (proj1 (@versionsMatch_ignores_padding " " firmware "  " firmware
                  eq_refl eq_refl)).
Defined.

Lemma closed_session_is_unusable_witness :
  Adb.getProperty usb_phone "ro.product.model" (Adb.new_AdbService, []) =
    (Rejected (ErrorObj "Not connected to device"), (Adb.new_AdbService, [])) /\
  Adb.getDeviceInfo usb_phone (Adb.new_AdbService, []) =
    (Rejected (ErrorObj "Not connected to device"), (Adb.new_AdbService, [])) /\
  Adb.rebootToBootloader usb_phone (Adb.new_AdbService, []) =
    (Rejected (ErrorObj "Not connected to device"), (Adb.new_AdbService, [])).
Proof.
  apply (@closed_session_is_unusable usb_phone (Adb.new_AdbService, [])
           "ro.product.model").
  left. reflexivity.
Defined.

Lemma getDeviceInfo_reads_both_witness :
  fst (Adb.getDeviceInfo usb_phone (connected_service, [])) = Resolved phone /\
  snd (Adb.getDeviceInfo usb_phone (connected_service, [])) =
    (connected_service,
     [Adb.GetProp "ro.product.model"; Adb.GetProp "ro.build.display.id"]).
Proof.
  destruct (@getDeviceInfo_reads_both usb_phone connected_service []
              "1a2b3c" eq_refl) as (Hs & Hi & _).
  split; [|exact Hs].
  apply (Hi phone). repeat split.
Defined.

Lemma disconnect_closes_once_witness :
  Adb.disconnect usb_phone (connected_service, []) =
    (Resolved tt, (Adb.new_AdbService, [Adb.Close])).
Proof.
  destruct (@disconnect_closes_once usb_phone connected_service []
              "1a2b3c" eq_refl) as [Hd _].
  destruct (Hd eq_refl) as [E _]. exact E.
Defined.

Lemma dismissed_picker_is_recoverable_witness :
  state (app (after [Click BtnConnectAdb;
                     Settle 0 (Device (fst (Adb.connect usb_dismissed
                                              (Adb.new_AdbService, []))))]))
    = WAITING_ADB_CONNECT /\
  error (app (after [Click BtnConnectAdb;
                     Settle 0 (Device (fst (Adb.connect usb_dismissed
                                              (Adb.new_AdbService, []))))]))
    = None.
Proof.
  destruct (@dismissed_picker_is_recoverable env usb_dismissed
              (Adb.new_AdbService, [])
              (after [Click BtnConnectAdb])
              (after [Click BtnConnectAdb;
                      Settle 0 (Device (fst (Adb.connect usb_dismissed
                                               (Adb.new_AdbService, []))))]))
    as [H _].
  - apply after_reachable.
  - vm_compute. reflexivity.
  - vm_compute. reflexivity.
  - destruct (H eq_refl eq_refl) as (Hs & He & _). split; assumption.
Defined.

Lemma error_message_iff_error_state_witness :
  (error (app (after to_failed_download)) <> None <->
   state (app (after to_failed_download)) = ERROR) /\
  (state (app (after to_failed_download)) = ERROR ->
   forall e c', step env (after to_failed_download) e = Some c' ->
     e = Click BtnReset /\ app c' = initialState /\ tasks c' = []).
Proof.
  exact (@error_message_iff_error_state env (after to_failed_download)
           (after_reachable to_failed_download)).
Defined.

Lemma progress_only_during_its_step_witness :
  (downloadProgress (app (after to_reboot)) <> None ->
     state (app (after to_reboot)) = DOWNLOADING_IMAGE \/
     state (app (after to_reboot)) = ERROR) /\
  (flashProgress (app (after to_reboot)) <> None ->
     state (app (after to_reboot)) = FLASHING \/
     state (app (after to_reboot)) = ERROR).
Proof.
  exact (@progress_only_during_its_step env (after to_reboot)
           (after_reachable to_reboot)).
Defined.

Lemma only_eligible_devices_proceed_witness :
  state (app (after (to_device_read ++
                     [Settle 0 (DeviceInfoRead (Resolved other_phone))])%list))
    = ERROR /\
  calls (after (to_device_read ++
                [Settle 0 (DeviceInfoRead (Resolved other_phone))])%list)
    = calls (after to_device_read) /\
  fetched (after (to_device_read ++
                  [Settle 0 (DeviceInfoRead (Resolved other_phone))])%list)
    = fetched (after to_device_read).
Proof.
  destruct (@only_eligible_devices_proceed env (after to_device_read)
              (after_reachable to_device_read)) as [_ H].
  destruct (H other_phone
              (after (to_device_read ++
                      [Settle 0 (DeviceInfoRead (Resolved other_phone))])%list))
    as (Hs & _ & _ & _ & Hc & Hf).
  - intros (parsed & Hp & Ho). vm_compute in Hp. injection Hp as <-.
    vm_compute in Ho. discriminate Ho.
  - vm_compute. reflexivity.
  - split; [exact Hs | split; [exact Hc | exact Hf]].
Defined.

Lemma download_button_fetches_the_patched_image_witness :
  exists d release asset c',
    deviceInfo (app (after to_release_matched)) = Some d /\
    matchedRelease (app (after to_release_matched)) = Some release /\
    tag_name release = firmwareVersion d /\
    In asset (assets release) /\
    name asset = "magisk_patched_init_boot.img" /\
    step env (after to_release_matched) (Click BtnDownloadImage) = Some c' /\
    tasks c' = [DownloadAsset asset] /\
    state (app c') = DOWNLOADING_IMAGE /\
    downloadProgress (app c') =
      Some {| loaded := 0; total := size asset; percentage := 0 |}.
Proof.
  apply (@download_button_fetches_the_patched_image env
           (after to_release_matched)).
  - apply after_reachable.
  - vm_compute. reflexivity.
Defined.

Lemma flashes_what_was_downloaded_witness :
  tasks (after (to_unlock_check ++
                [Settle 0 (VariableRead unlocked_phone)])%list) =
    [FlashInitBoot [x01; x02; x03]] /\
  imageBlob (app (after (to_unlock_check ++
                         [Settle 0 (VariableRead unlocked_phone)])%list)) =
    Some (List.concat image_chunks).
Proof.
  destruct (@flashes_what_was_downloaded env
              (after to_unlock_check)
              (Settle 0 (VariableRead unlocked_phone))
              (after (to_unlock_check ++
                      [Settle 0 (VariableRead unlocked_phone)])%list))
    as (_ & Hf & _).
  - apply after_reachable.
  - vm_compute. reflexivity.
  - split; [vm_compute; reflexivity|].
    apply (Hf [x01; x02; x03]). vm_compute. left. reflexivity.
Defined.

Lemma calls_follow_the_flow_witness :
  started_by (after to_unlock_check)
    (Settle 0 (VariableRead unlocked_phone))
    (FlashInitBoot [x01; x02; x03]).
Proof.
  apply (@calls_follow_the_flow env
           (after to_unlock_check)
           (Settle 0 (VariableRead unlocked_phone))
           (after (to_unlock_check ++
                   [Settle 0 (VariableRead unlocked_phone)])%list)).
  - apply after_reachable.
  - vm_compute. reflexivity.
  - vm_compute. reflexivity.
Defined.

Lemma unsupported_browser_makes_no_call_witness :
  state (app (after_in env_without_webusb [Click BtnConnectAdb])) =
    BROWSER_UNSUPPORTED /\
  calls (after_in env_without_webusb [Click BtnConnectAdb]) = [] /\
  fetched (after_in env_without_webusb [Click BtnConnectAdb]) = [] /\
  step env_without_webusb (after_in env_without_webusb [Click BtnConnectAdb])
       (Click BtnConnectAdb) = None.
Proof.
  destruct (@unsupported_browser_makes_no_call env_without_webusb
              (after_in env_without_webusb [Click BtnConnectAdb])
              eq_refl (after_in_reachable _ _))
    as (_ & _ & Hc & Hf & Hd).
  split; [vm_compute; reflexivity|]. split; [exact Hc|]. split; [exact Hf|].
  apply Hd. vm_compute. reflexivity.
Defined.

Lemma reset_is_a_fresh_start_witness :
  app (after (to_failed_download ++ [Click BtnReset])%list) = initialState /\
  tasks (after (to_failed_download ++ [Click BtnReset])%list) = [] /\
  sessions (after (to_failed_download ++ [Click BtnReset])%list) =
    S (sessions (after to_failed_download)) /\
  match run env (after (to_failed_download ++ [Click BtnReset])%list)
            to_release_matched,
        run env (fresh (github (after to_failed_download))) to_release_matched
  with
  | Some d1, Some d2 => same_run d1 d2
  | None, None => True
  | _, _ => False
  end.
Proof.
  apply (@reset_is_a_fresh_start env (after to_failed_download)).
  - apply after_reachable.
  - vm_compute. reflexivity.
Defined.

Lemma log_only_grows_witness :
  exists more,
    logs (app (after (to_release_matched ++ [Click BtnDownloadImage])%list)) =
    (logs (app (after to_release_matched)) ++ more)%list.
Proof.
  apply (@log_only_grows env (after to_release_matched)
           (Click BtnDownloadImage)).
  - vm_compute. reflexivity.
  - discriminate.
Defined.

End ScenarioFacts.
